(** * SMPTE color bars: layout, animation clock and time synchronisation

    A shallow embedding of [src/lib/components/ColorBars.svelte] and
    [src/lib/timeSync.ts].

    Numbers.  A JavaScript number is modelled by an exact rational ([Q]):
    rounding and overflow of binary64 arithmetic are outside the model.  The
    one source of non-finite values that the layout could meet, a division by
    zero, is tracked by the checked evaluation of module [Checked].  Instants
    ([Date] time values) are integers, in milliseconds since the epoch. *)

From Stdlib Require Import ZArith QArith Qround Qabs Qminmax Lia Lqa List String Ascii Bool.
From Stdlib Require Import NArith DecimalString DecimalFacts DecimalPos PrimFloat Uint63 Sorted.
Import ListNotations.
Local Open Scope Q_scope.

(** ** JavaScript helpers shared by both files *)

(** [{#each xs as x, i}] and [Array.prototype.map((x, i) => ...)]. *)
Fixpoint eachFrom {A B : Type} (i : nat) (f : A -> nat -> B) (l : list A) : list B :=
  match l with
  | [] => []
  | x :: l' => f x i :: eachFrom (S i) f l'
  end.

Definition each {A B : Type} (f : A -> nat -> B) (l : list A) : list B :=
  eachFrom 0 f l.

(** The index [i] of an [#each] block used as a number. *)
Definition ofIndex (i : nat) : Q := inject_Z (Z.of_nat i).

(** [xs.reduce((sum, item) => f(sum, item), init)]. *)
Definition reduce {A : Type} (f : Q -> A -> Q) (init : Q) (l : list A) : Q :=
  fold_left f l init.

(** [xs.slice(0, index)] for an index that is a position of the array. *)
Definition slice0 {A : Type} (index : nat) (l : list A) : list A := firstn index l.

(** [Math.floor] on a finite number. *)
Definition floor (x : Q) : Z := Qfloor x.

(** [Math.round]: the nearest integer, halves rounded up. *)
Definition round (x : Q) : Z := Qfloor (x + (1 # 2)).

(** The sum of the numbers of a list, used to state the claims on rows. *)
Definition Qsum (l : list Q) : Q := fold_right Qplus 0 l.

(** ** The three bar rows (ColorBars.svelte, lines 100-142 and 304-337) *)

Module Layout.

Record Bar := { color : string; name : string }.

Record Segment := { seg_color : string; seg_name : string; width : Q }.

(** An SVG [<rect>] as the template emits it. *)
Record Rect := { x : Q; y : Q; rect_width : Q; rect_height : Q; fill : string }.

Definition mainBars : list Bar :=
  [ {| color := "#b4b4b4"; name := "75% White" |};
    {| color := "#b4b400"; name := "75% Yellow" |};
    {| color := "#00b4b4"; name := "75% Cyan" |};
    {| color := "#00b400"; name := "75% Green" |};
    {| color := "#b400b4"; name := "75% Magenta" |};
    {| color := "#b40000"; name := "75% Red" |};
    {| color := "#0000b4"; name := "75% Blue" |} ].

Definition castellations : list Bar :=
  [ {| color := "#0000b4"; name := "Blue" |};
    {| color := "#000000"; name := "Black" |};
    {| color := "#b400b4"; name := "Magenta" |};
    {| color := "#000000"; name := "Black" |};
    {| color := "#00b4b4"; name := "Cyan" |};
    {| color := "#000000"; name := "Black" |};
    {| color := "#b4b4b4"; name := "75% White" |} ].

Definition pluGeRow : list Segment :=
  [ {| seg_color := "#00214c"; seg_name := "-I"; width := 1 |};
    {| seg_color := "#ffffff"; seg_name := "100% White"; width := 1 |};
    {| seg_color := "#320042"; seg_name := "+Q"; width := 1 |};
    {| seg_color := "#000000"; seg_name := "Black"; width := 1 |};
    {| seg_color := "#000000"; seg_name := "Superblack (3.5%)"; width := 0.5 |};
    {| seg_color := "#0d0d0d"; seg_name := "Black (7.5%)"; width := 1 |};
    {| seg_color := "#1a1a1a"; seg_name := "Light Black (11.5%)"; width := 0.5 |};
    {| seg_color := "#000000"; seg_name := "Black"; width := 2 |} ].

Section Canvas.
(** The props [width] and [height] of the component. *)
Variables canvasWidth canvasHeight : Q.

Definition plugeY : Q := canvasHeight * 0.75.
Definition plugeHeight : Q := canvasHeight * 0.25.
Definition totalWidthUnits : Q := reduce (fun sum item => sum + width item) 0 pluGeRow.
Definition unitWidth : Q := canvasWidth / totalWidthUnits.

Definition getPlugeX (index : nat) : Q :=
  reduce (fun sum item => sum + width item * (canvasWidth / totalWidthUnits)) 0
         (slice0 index pluGeRow).

(** Main color bars, top 67%. *)
Definition mainBarRects : list Rect :=
  each (fun bar i =>
          {| x := (canvasWidth / 7) * ofIndex i;
             y := 0;
             rect_width := canvasWidth / 7 + 1;
             rect_height := canvasHeight * 0.67;
             fill := color bar |}) mainBars.

(** Castellations row, 8% height. *)
Definition castellationRects : list Rect :=
  each (fun bar i =>
          {| x := (canvasWidth / 7) * ofIndex i;
             y := canvasHeight * 0.67;
             rect_width := canvasWidth / 7 + 1;
             rect_height := canvasHeight * 0.08;
             fill := color bar |}) castellations.

(** PLUGE and reference row, bottom 25%. *)
Definition plugeRects : list Rect :=
  each (fun segment i =>
          {| x := getPlugeX i;
             y := plugeY;
             rect_width := width segment * unitWidth + 1;
             rect_height := plugeHeight;
             fill := seg_color segment |}) pluGeRow.

(** The [<g>] group of the three rows, in document order. *)
Definition barRows : list Rect :=
  mainBarRects ++ castellationRects ++ plugeRects.
End Canvas.

(** The right edge of a rectangle. *)
Definition right (r : Rect) : Q := x r + rect_width r.

(** The rectangle drawn last in a row. *)
Definition lastRect (l : list Rect) : option Rect := nth_error l (List.length l - 1).

End Layout.

(** ** Checked evaluation of the bar rows

    The same expressions as in [Layout], evaluated with a division that
    fails on a zero divisor: [None] stands for the NaN or infinity that
    JavaScript would produce there. *)

Module Checked.

Definition num := option Q.

Definition div (a b : Q) : num :=
  if Qeq_bool b 0 then None else Some (a / b).

Definition bind {A B : Type} (c : option A) (k : A -> option B) : option B :=
  match c with
  | Some a => k a
  | None => None
  end.

Notation "v <- c ;; k" := (bind c (fun v => k))
  (at level 61, c at next level, right associativity).

Fixpoint sequence {A : Type} (l : list (option A)) : option (list A) :=
  match l with
  | [] => Some []
  | c :: l' => a <- c ;; r <- sequence l' ;; Some (a :: r)
  end.

Section Canvas.
Variables canvasWidth canvasHeight : Q.

Definition unitWidth : num := div canvasWidth Layout.totalWidthUnits.

Definition getPlugeX (index : nat) : num :=
  fold_left (fun sum item =>
               s <- sum ;;
               u <- div canvasWidth Layout.totalWidthUnits ;;
               Some (s + Layout.width item * u))
            (slice0 index Layout.pluGeRow) (Some 0).

Definition mainBarRects : option (list Layout.Rect) :=
  sequence
    (each (fun bar i =>
             p <- div canvasWidth 7 ;;
             q <- div canvasWidth 7 ;;
             Some {| Layout.x := p * ofIndex i;
                     Layout.y := 0;
                     Layout.rect_width := q + 1;
                     Layout.rect_height := canvasHeight * 0.67;
                     Layout.fill := Layout.color bar |}) Layout.mainBars).

Definition castellationRects : option (list Layout.Rect) :=
  sequence
    (each (fun bar i =>
             p <- div canvasWidth 7 ;;
             q <- div canvasWidth 7 ;;
             Some {| Layout.x := p * ofIndex i;
                     Layout.y := canvasHeight * 0.67;
                     Layout.rect_width := q + 1;
                     Layout.rect_height := canvasHeight * 0.08;
                     Layout.fill := Layout.color bar |}) Layout.castellations).

Definition plugeRects : option (list Layout.Rect) :=
  sequence
    (each (fun segment i =>
             px <- getPlugeX i ;;
             u <- unitWidth ;;
             Some {| Layout.x := px;
                     Layout.y := Layout.plugeY canvasHeight;
                     Layout.rect_width := Layout.width segment * u + 1;
                     Layout.rect_height := Layout.plugeHeight canvasHeight;
                     Layout.fill := Layout.seg_color segment |}) Layout.pluGeRow).

Definition barRows : option (list Layout.Rect) :=
  a <- mainBarRects ;; b <- castellationRects ;; c <- plugeRects ;;
  Some (a ++ b ++ c).
End Canvas.

End Checked.

(** ** Time synchronisation (timeSync.ts) *)

Module TimeSync.

(** A [Date] object: [Some t] holds the time value [t]; [None] is an
    Invalid Date, whose time value is NaN. *)
Definition Date := option Z.

(** A number that may be NaN ([None]). *)
Definition Num := option Q.

Definition add (a b : Num) : Num :=
  match a, b with Some p, Some q => Some (p + q) | _, _ => None end.

Definition sub (a b : Num) : Num :=
  match a, b with Some p, Some q => Some (p - q) | _, _ => None end.

Definition ofInt (z : Z) : Num := Some (inject_Z z).

(** [ToIntegerOrInfinity]: truncation toward zero. *)
Definition trunc (q : Q) : Z :=
  if Qle_bool 0 q then Qfloor q else Qceiling q.

(** [new Date(value)]: [TimeClip] of a number. *)
Definition newDate (v : Num) : Date :=
  match v with
  | None => None
  | Some q => if Qle_bool (Qabs q) 8640000000000000 then Some (trunc q) else None
  end.

Definition getTime (d : Date) : Num :=
  match d with Some t => ofInt t | None => None end.

Record TimeData := {
  serverTime : Date;
  offset : Num;        (* difference between local and server time in ms *)
  lastSync : Date;
  synced : bool
}.

(** The module-level variables. *)
Record Store := { timeData : TimeData; syncInProgress : bool }.

(** The store when the module is loaded at local time [now]. *)
Definition initial (now : Z) : Store :=
  {| timeData := {| serverTime := Some now; offset := Some 0;
                    lastSync := Some 0%Z; synced := false |};
     syncInProgress := false |}.

(** How the awaited part of [syncTime] ends. *)
Inductive Fetched :=
| FetchRejected                 (* [fetch] rejects *)
| ResponseNotOk                 (* [response.ok] is false: the function throws *)
| JsonRejected                  (* [response.json()] rejects: the body does not parse *)
| DataNotObject                 (* the body is [null]: reading its field throws *)
| Body (utc_datetime : Date).   (* [new Date(data.utc_datetime)] *)

(** The outcomes that end in the [catch] block. *)
Definition failed (r : Fetched) : bool :=
  match r with Body _ => false | _ => true end.

(** The readings of [Date.now()] and [new Date()] made by one call. *)
Record Readings := {
  requestStart : Z; requestEnd : Z; localTimestamp : Z; lastSyncNow : Z
}.

(** The part of [syncTime] before the first [await]: [None] when a sync is
    in progress and the call returns [timeData] at once. *)
Definition begin (s : Store) : option Store :=
  if syncInProgress s then None
  else Some {| timeData := timeData s; syncInProgress := true |}.

(** The part after the awaits: the [try] body, [catch] and [finally]. *)
Definition settle (s : Store) (r : Fetched) (c : Readings) : Store :=
  match r with
  | Body d =>
      let latency : Num := Some ((inject_Z (requestEnd c) - inject_Z (requestStart c)) / 2) in
      let serverTimestamp := add (getTime d) latency in
      {| timeData := {| serverTime := newDate serverTimestamp;
                        offset := sub serverTimestamp (ofInt (localTimestamp c));
                        lastSync := Some (lastSyncNow c);
                        synced := true |};
         syncInProgress := false |}
  | _ =>
      {| timeData := {| serverTime := serverTime (timeData s);
                        offset := offset (timeData s);
                        lastSync := lastSync (timeData s);
                        synced := false |};
         syncInProgress := false |}
  end.

(** No other code writes [timeData] while a call is suspended (a second
    call returns at [begin]), so a call is its two parts in sequence. *)
Definition syncTime (s : Store) (r : Fetched) (c : Readings) : Store :=
  match begin s with
  | None => s
  | Some s1 => settle s1 r c
  end.

(** [getSyncedTime()] when [Date.now()] answers [now]. *)
Definition getSyncedTime (s : Store) (now : Z) : Date :=
  newDate (add (ofInt now) (offset (timeData s))).

End TimeSync.

(** ** Built-ins of the language used by the component *)

Module JsString.

Local Open Scope string_scope.

(** [Number.prototype.toString] on an integer. *)
Definition toString (n : Z) : string := NilZero.string_of_int (Z.to_int n).

(** [count] copies of [pad], cut to [count] characters. *)
Fixpoint filler (fuel : nat) (pad : string) (count : nat) : string :=
  match fuel with
  | O => ""
  | S fuel' =>
      if (count <=? String.length pad)%nat then substring 0 count pad
      else pad ++ filler fuel' pad (count - String.length pad)
  end.

(** [String.prototype.padStart(targetLength, padString)]. *)
Definition padStart (targetLength : nat) (pad : string) (s : string) : string :=
  if (targetLength <=? String.length s)%nat then s
  else if (String.length pad =? 0)%nat then s
  else filler targetLength pad (targetLength - String.length s) ++ s.

End JsString.

Module JsDate.

Local Open Scope Z_scope.

Definition msPerDay : Z := 86400000.
Definition msPerHour : Z := 3600000.
Definition msPerMinute : Z := 60000.
Definition msPerSecond : Z := 1000.

Definition Day (t : Z) : Z := t / msPerDay.
Definition HourFromTime (t : Z) : Z := (t / msPerHour) mod 24.
Definition MinFromTime (t : Z) : Z := (t / msPerMinute) mod 60.
Definition SecFromTime (t : Z) : Z := (t / msPerSecond) mod 60.
Definition msFromTime (t : Z) : Z := t mod msPerSecond.

Definition getUTCHours := HourFromTime.
Definition getUTCMinutes := MinFromTime.
Definition getUTCSeconds := SecFromTime.
Definition getUTCMilliseconds := msFromTime.

Section Local.
(** The local time zone adjustment of the host, in milliseconds, at a
    given instant. *)
Variable localTZA : Z -> Z.

Definition LocalTime (t : Z) : Z := t + localTZA t.
Definition getHours (t : Z) : Z := HourFromTime (LocalTime t).
Definition getMinutes (t : Z) : Z := MinFromTime (LocalTime t).
Definition getSeconds (t : Z) : Z := SecFromTime (LocalTime t).
Definition getMilliseconds (t : Z) : Z := msFromTime (LocalTime t).
End Local.

(** [d.setUTCHours(h, m, s, ms)]: the same day, the given time of day. *)
Definition setUTCHours (t h m s ms : Z) : Z :=
  Day t * msPerDay + (h * msPerHour + m * msPerMinute + s * msPerSecond + ms).

(** Year, month (1-12) and day of the month of a day number, in the
    proleptic Gregorian calendar. *)
Definition civil (days : Z) : Z * Z * Z :=
  let z := days + 719468 in
  let era := z / 146097 in
  let doe := z - era * 146097 in
  let yoe := (doe - doe / 1460 + doe / 36524 - doe / 146096) / 365 in
  let doy := doe - (365 * yoe + yoe / 4 - yoe / 100) in
  let mp := (5 * doy + 2) / 153 in
  let d := doy - (153 * mp + 2) / 5 + 1 in
  let m := if mp <? 10 then mp + 3 else mp - 9 in
  let y := yoe + era * 400 in
  (if m <=? 2 then y + 1 else y, m, d).

Local Open Scope string_scope.

Definition pad (n : nat) (v : Z) : string :=
  JsString.padStart n "0" (JsString.toString v).

Definition yearString (y : Z) : string :=
  if ((0 <=? y) && (y <=? 9999))%Z then pad 4 y
  else if (y <? 0)%Z then "-" ++ pad 6 (- y)
  else "+" ++ pad 6 y.

(** [Date.prototype.toISOString] on a valid date. *)
Definition toISOString (t : Z) : string :=
  let '(y, m, d) := civil (Day t) in
  yearString y ++ "-" ++ pad 2 m ++ "-" ++ pad 2 d ++ "T"
    ++ pad 2 (HourFromTime t) ++ ":" ++ pad 2 (MinFromTime t) ++ ":"
    ++ pad 2 (SecFromTime t) ++ "." ++ pad 3 (msFromTime t) ++ "Z".

End JsDate.

(** ** The animation clock (ColorBars.svelte, lines 35-94 and 144-281) *)

Module ColorBars.

Definition gtb (a b : Q) : bool := negb (Qle_bool a b).   (* a > b *)
Definition geb (a b : Q) : bool := Qle_bool b a.          (* a >= b *)
Definition leb (a b : Q) : bool := Qle_bool a b.          (* a <= b *)

Record RemoteTimezone := { tz_label : string; timezone : string }.

(** The props read by the script. *)
Record Props := {
  width : Q;
  height : Q;
  showBall : bool;
  showSpinner : bool;
  showSyncQr : bool;
  showShimmer : bool;
  showUtc : bool;
  showLocal : bool;
  remoteTimezone : option RemoteTimezone
}.

(** What the host supplies: the time zones, the printing of a number in a
    template string, and the QR encoder with the canvas it draws on. *)
Record Env := {
  localTZA : Z -> Z;
  zoneTZA : string -> option (Z -> Z);    (* [None]: unknown zone *)
  numberToString : Q -> string;
  encodeQr : string -> string * Z         (* data URL and module count *)
}.

(** *** Effects of a tick

    [clock k] is the instant that the [k]-th call of [getSyncedTime]
    answers, a valid date; [reads] counts the calls made so far; [encoded]
    logs the payloads handed to [generateSyncDataUrl], latest first. *)
Record World := { clock : nat -> Z; reads : nat; encoded : list string }.

Definition Eff (A : Type) : Type := World -> A * World.

Definition ret {A : Type} (a : A) : Eff A := fun w => (a, w).

Definition bind {A B : Type} (c : Eff A) (k : A -> Eff B) : Eff B :=
  fun w => let (a, w') := c w in k a w'.

Notation "v <- c ;; k" := (bind c (fun v => k))
  (at level 61, c at next level, right associativity).

Definition getSyncedTime : Eff Z :=
  fun w => (clock w (reads w),
            {| clock := clock w; reads := S (reads w); encoded := encoded w |}).

Definition generateSyncDataUrl (env : Env) (payload : string) : Eff (string * Z) :=
  fun w => (encodeQr env payload,
            {| clock := clock w; reads := reads w; encoded := payload :: encoded w |}).

(** *** State of a mounted component *)

Record Fps := { fps : Z; lastFrameTime : Q; frameCount : Z; fpsUpdateTime : Q }.
Record Ball := { ballX : Q; ballDirection : Z }.
Record Spinner := { spinnerAngle : Q; spinnerFlashFrameMs : Q; spinnerPhaseMs : Z }.
Record Qr := { qrSize : Z; qrToken : Z; qrLabel : string; qrDataUrl : string }.

Record State := {
  currentTime : Z;
  frames : Fps;
  ball : Ball;
  spinner : Spinner;
  qr : Qr;
  shimmerX : Q
}.

Inductive Contact := NoContact | RightBound | LeftBound.

Definition spinnerCycleMs : Z := 5000.
Definition spinnerStartAngle : Q := 180.

Section Component.
Variable env : Env.
Variable props : Props.

Definition ballRadius : Q := Qmin (width props) (height props) * 0.025.
Definition ballY : Q := height props * 0.67 / 2.
Definition ballSpeed : Q := width props / 2.
Definition shimmerSpeed : Q := width props / 5.
Definition shimmerWidth : Q := width props * 0.3.

(** The [f..] field of the payload. *)
Definition frameField (frame : Z) : string :=
  JsString.padStart 2 "0" (JsString.toString frame).

Definition payload (iso : string) (frame : string) : string :=
  (iso ++ "|" ++ numberToString env (width props) ++ "x"
       ++ numberToString env (height props) ++ "|f" ++ frame)%string.

(** The variables as declared, [currentTime] being [new Date()] = [t0]. *)
Definition declared (t0 : Z) : State :=
  {| currentTime := t0;
     frames := {| fps := 0; lastFrameTime := 0; frameCount := 0; fpsUpdateTime := 0 |};
     ball := {| ballX := 0; ballDirection := 1 |};
     spinner := {| spinnerAngle := 0; spinnerFlashFrameMs := 1000 / 60;
                   spinnerPhaseMs := 0 |};
     qr := {| qrSize := 29; qrToken := 0; qrLabel := ""; qrDataUrl := "" |};
     shimmerX := 0 |}.

(** [onMount], up to the first [requestAnimationFrame]. *)
Definition onMount (t0 : Z) : Eff State :=
  let st := declared t0 in
  let label := payload (JsDate.toISOString (currentTime st)) "00" in
  qrInit <- generateSyncDataUrl env label ;;
  ret {| currentTime := currentTime st;
         frames := frames st;
         ball := {| ballX := ballRadius; ballDirection := ballDirection (ball st) |};
         spinner := spinner st;
         qr := {| qrSize := snd qrInit; qrToken := qrToken (qr st);
                  qrLabel := label; qrDataUrl := fst qrInit |};
         shimmerX := shimmerX st |}.

Definition deltaMs (f : Fps) (timestamp : Q) : Q :=
  if gtb (lastFrameTime f) 0 then timestamp - lastFrameTime f else 16.67.

Definition updateFps (f : Fps) (timestamp : Q) : Fps :=
  let count := (frameCount f + 1)%Z in
  if geb (timestamp - fpsUpdateTime f) 500 then
    {| fps := round ((inject_Z count * 1000) / (timestamp - fpsUpdateTime f));
       lastFrameTime := timestamp; frameCount := 0; fpsUpdateTime := timestamp |}
  else
    {| fps := fps f; lastFrameTime := timestamp; frameCount := count;
       fpsUpdateTime := fpsUpdateTime f |}.

Definition updateBall (b : Ball) (delta : Q) : Ball :=
  if showBall props then
    let moved := ballX b + ballSpeed * inject_Z (ballDirection b) * (delta / 1000) in
    if geb moved (width props - ballRadius) then
      {| ballX := width props - ballRadius; ballDirection := -1 |}
    else if leb moved ballRadius then
      {| ballX := ballRadius; ballDirection := 1 |}
    else {| ballX := moved; ballDirection := ballDirection b |}
  else b.

(** Which branch of the bounce test a tick takes: an observation of
    [updateBall], with the same tests. *)
Definition contact (b : Ball) (delta : Q) : Contact :=
  if showBall props then
    let moved := ballX b + ballSpeed * inject_Z (ballDirection b) * (delta / 1000) in
    if geb moved (width props - ballRadius) then RightBound
    else if leb moved ballRadius then LeftBound
    else NoContact
  else NoContact.

(** The ball is between the two bounds and has a direction. *)
Definition inBounds (b : Ball) : Prop :=
  ballRadius <= ballX b /\ ballX b <= width props - ballRadius
  /\ (ballDirection b = 1 \/ ballDirection b = -1)%Z.

(** [%] is the remainder that takes the sign of the dividend. *)
Definition phaseOf (t : Z) : Z :=
  Z.rem (Z.rem t spinnerCycleMs + spinnerCycleMs) spinnerCycleMs.

Definition angleOf (phase : Z) : Q :=
  (inject_Z phase / inject_Z spinnerCycleMs) * 360.

Definition updateSpinner (s : Spinner) (now : Z) (delta : Q) : Spinner :=
  if showSpinner props then
    {| spinnerAngle := angleOf (phaseOf now); spinnerFlashFrameMs := delta;
       spinnerPhaseMs := phaseOf now |}
  else
    {| spinnerAngle := spinnerAngle s; spinnerFlashFrameMs := delta;
       spinnerPhaseMs := spinnerPhaseMs s |}.

Definition frameOf (now : Z) : Z :=
  floor ((inject_Z (JsDate.getUTCMilliseconds now) / 1000) * 30).

Definition tokenOf (now : Z) : Z := floor (inject_Z now / 1000).

Definition updateQr (q : Qr) (now : Z) : Eff Qr :=
  if showSyncQr props then
    let frame := frameOf now in
    let nextToken := tokenOf now in
    if negb (nextToken =? qrToken q)%Z then
      let label := payload (JsDate.toISOString now) (frameField frame) in
      qrResult <- generateSyncDataUrl env label ;;
      ret {| qrSize := snd qrResult; qrToken := nextToken; qrLabel := label;
             qrDataUrl := fst qrResult |}
    else ret q
  else ret q.

Definition updateShimmer (sx : Q) (delta : Q) : Q :=
  if showShimmer props then
    let moved := sx + shimmerSpeed * (delta / 1000) in
    if gtb moved (width props) then - shimmerWidth - height props else moved
  else sx.

(** One call of [updateAnimation(timestamp)]; the request for the next
    frame that ends it is left to the caller, see [run]. *)
Definition updateAnimation (timestamp : Q) (st : State) : Eff State :=
  now <- getSyncedTime ;;
  let delta := deltaMs (frames st) timestamp in
  q <- updateQr (qr st) now ;;
  ret {| currentTime := now;
         frames := updateFps (frames st) timestamp;
         ball := updateBall (ball st) delta;
         spinner := updateSpinner (spinner st) now delta;
         qr := q;
         shimmerX := updateShimmer (shimmerX st) delta |}.

(** The frames requested one after another, at the given timestamps. *)
Fixpoint run (timestamps : list Q) (st : State) : Eff State :=
  match timestamps with
  | [] => ret st
  | timestamp :: rest => st' <- updateAnimation timestamp st ;; run rest st'
  end.

(** The component from mounting through the given frames. *)
Definition mounted (t0 : Z) (timestamps : list Q) : Eff State :=
  st <- onMount t0 ;; run timestamps st.

(** *** Timecodes *)

Definition getTimecode (date : Z) (useLocal : bool) : string :=
  let hours := JsString.padStart 2 "0" (JsString.toString
    (if useLocal then JsDate.getHours (localTZA env) date else JsDate.getUTCHours date)) in
  let minutes := JsString.padStart 2 "0" (JsString.toString
    (if useLocal then JsDate.getMinutes (localTZA env) date else JsDate.getUTCMinutes date)) in
  let seconds := JsString.padStart 2 "0" (JsString.toString
    (if useLocal then JsDate.getSeconds (localTZA env) date else JsDate.getUTCSeconds date)) in
  let ms := if useLocal then JsDate.getMilliseconds (localTZA env) date
            else JsDate.getUTCMilliseconds date in
  let frames := JsString.padStart 2 "0" (JsString.toString
    (floor ((inject_Z ms / 1000) * 30))) in
  (hours ++ ":" ++ minutes ++ ":" ++ seconds ++ ":" ++ frames)%string.

(** [getTimecode] of a [Date] object: the fields of an Invalid Date are
    NaN, which [toString] prints as "NaN". *)
Definition getTimecodeOf (date : TimeSync.Date) (useLocal : bool) : string :=
  match date with
  | Some t => getTimecode t useLocal
  | None =>
      let nan := JsString.padStart 2 "0" "NaN" in
      (nan ++ ":" ++ nan ++ ":" ++ nan ++ ":" ++ nan)%string
  end.

(** [getTime] is a closure over [currentTime], which [getSyncedTime] may
    have answered with an Invalid Date: here a function of it, [None] when
    the closure throws. *)
Record TimeDisplay := {
  label : string;
  getTime : TimeSync.Date -> option TimeSync.Date;
  color : string;
  isLocal : bool
}.

(** The closure of the remote display.  [new Intl.DateTimeFormat] throws a
    RangeError for a zone that the host does not know, and [formatToParts]
    throws one for an Invalid Date. *)
Definition remoteTime (rz : RemoteTimezone) (current : TimeSync.Date)
  : option TimeSync.Date :=
  match zoneTZA env (timezone rz) with
  | None => None
  | Some tza =>
      match current with
      | None => None
      | Some t =>
          let zoned := (t + tza t)%Z in
          Some (Some (JsDate.setUTCHours t (JsDate.HourFromTime zoned)
                        (JsDate.MinFromTime zoned) (JsDate.SecFromTime zoned)
                        (JsDate.msFromTime zoned)))
      end
  end.

Definition getTimeDisplays : list TimeDisplay :=
  (if showUtc props then
     [ {| label := "UTC"; getTime := Some; color := "#22c55e"; isLocal := false |} ]
   else [])
  ++ (if showLocal props then
        [ {| label := "LOCAL"; getTime := Some; color := "#3b82f6"; isLocal := true |} ]
      else [])
  ++ (match remoteTimezone props with
      | Some rz =>
          [ {| label := tz_label rz; getTime := remoteTime rz; color := "#eab308";
               isLocal := false |} ]
      | None => []
      end).

(** The timecode texts of the info panel, top to bottom, when
    [currentTime] is [current]; [None] for a row whose text throws. *)
Definition timecodesAt (current : TimeSync.Date) : list (option string) :=
  map (fun display =>
         match getTime display current with
         | Some date => Some (getTimecodeOf date (isLocal display))
         | None => None
         end) getTimeDisplays.

(** The texts after a tick, which has stored an instant. *)
Definition timecodes (st : State) : list (option string) :=
  timecodesAt (Some (currentTime st)).

End Component.

End ColorBars.

(** ** The timecode in the words of the specification

    HH:MM:SS:FF, each field zero-padded to 2 digits, FF the 30 frames per
    second index of the millisecond. *)

Module Spec.

Local Open Scope Z_scope.

Definition digit (d : Z) : ascii := ascii_of_nat (48 + Z.to_nat d).

Definition twoDigits (n : Z) : string :=
  String (digit (n / 10)) (String (digit (n mod 10)) EmptyString).

(** floor((milliseconds / 1000) * 30) *)
Definition frameIndex (ms : Z) : Z := ms * 30 / 1000.

(** The timecode of the calendar fields of the instant [t] of a clock
    that counts milliseconds from a midnight. *)
Definition timecode (t : Z) : string :=
  (twoDigits ((t / 3600000) mod 24) ++ ":" ++ twoDigits ((t / 60000) mod 60) ++ ":"
    ++ twoDigits ((t / 1000) mod 60) ++ ":" ++ twoDigits (frameIndex (t mod 1000)))%string.

End Spec.

(** ** The same arithmetic in binary64

    The expressions on which the concrete results below rest, evaluated
    with the floating-point numbers of the language itself. *)

Module Binary64.

Definition ofNat (n : nat) : float := PrimFloat.of_uint63 (Uint63.of_Z (Z.of_nat n)).

(** [Math.floor((ms / 1000) * 30)], before the floor. *)
Definition frames (ms : nat) : float :=
  PrimFloat.mul (PrimFloat.div (ofNat ms) (ofNat 1000)) (ofNat 30).

(** [Math.floor(x) = k], for a [k] that is not negative. *)
Definition floorIs (x : float) (k : nat) : bool :=
  PrimFloat.leb (ofNat k) x && PrimFloat.ltb x (ofNat (S k)).

(** [width / 7 + 1], the width of a main bar. *)
Definition mainBarWidth (canvasWidth : float) : float :=
  PrimFloat.add (PrimFloat.div canvasWidth (ofNat 7)) (ofNat 1).

End Binary64.

(** ** A host and a component to run the model on *)

Module Fixture.

Import ColorBars.

Definition env : Env :=
  {| localTZA := fun _ => 3600000%Z;
     zoneTZA := fun zone => if String.eqb zone "Asia/Kolkata" then Some (fun _ => 19800000%Z)
                            else None;
     numberToString := fun q => JsString.toString (Qfloor q);
     encodeQr := fun label => (label, 29%Z) |}.

Definition props : Props :=
  {| width := 1920; height := 1080;
     showBall := true; showSpinner := true; showSyncQr := true; showShimmer := true;
     showUtc := true; showLocal := true;
     remoteTimezone := Some {| tz_label := "IST"; timezone := "Asia/Kolkata" |} |}.

(** A synchronised clock that steps back between its first two answers,
    as after a sync that finds the local clock ahead. *)
Definition steppingBack : World :=
  {| clock := fun k => match k with
                       | O => 1704067200900
                       | 1%nat => 1704067199950
                       | _ => 1704067200000
                       end%Z;
     reads := 0; encoded := [] |}.

(** A synchronised clock that advances 16 ms per answer. *)
Definition steady : World :=
  {| clock := fun k => (1704067200500 + 16 * Z.of_nat k)%Z; reads := 0; encoded := [] |}.

End Fixture.

(** ** Overlays of the template (ColorBars.svelte, lines 37-38, 157-181 and
    339-799) *)

Module Overlay.

Record Box := { box_x : Q; box_y : Q; box_width : Q; box_height : Q }.
Record Line := { x1 : Q; y1 : Q; x2 : Q; y2 : Q }.
Record Circle := { cx : Q; cy : Q; r : Q }.

Inductive HAlign := HLeft | HCenter | HRight.
Inductive VAlign := VTop | VCenter | VBottom.

(** SMPTE ST 2046-1 safe areas. *)
Definition actionSafe : Q := 0.035.
Definition titleSafe : Q := 0.05.

(** A string used as a condition. *)
Definition truthy (s : string) : bool := negb (String.eqb s "").

(** A [string | null] used as a condition. *)
Definition present (o : option string) : bool :=
  match o with Some s => truthy s | None => false end.

Definition bottom (b : Box) : Q := box_y b + box_height b.
Definition rightEdge (b : Box) : Q := box_x b + box_width b.

(** [inner] lies within [outer], edges included. *)
Definition within (inner outer : Box) : Prop :=
  box_x outer <= box_x inner /\ rightEdge inner <= rightEdge outer
  /\ box_y outer <= box_y inner /\ bottom inner <= bottom outer.

Section Canvas.
Variables width height : Q.

(** *** Frame border, diagonal cross and center circle *)

Definition frameBorder : Box :=
  {| box_x := 1; box_y := 1; box_width := width - 2; box_height := height - 2 |}.

Definition frameDiagonals : list Line :=
  [ {| x1 := 0; y1 := 0; x2 := width; y2 := height |};
    {| x1 := width; y1 := 0; x2 := 0; y2 := height |} ].

Definition frameCircle : Circle :=
  {| cx := width / 2; cy := height / 2; r := Qmin width height * 0.15 |}.

(** *** Safe area grid *)

Definition actionSafeRect : Box :=
  {| box_x := width * actionSafe; box_y := height * actionSafe;
     box_width := width * (1 - 2 * actionSafe);
     box_height := height * (1 - 2 * actionSafe) |}.

Definition titleSafeRect : Box :=
  {| box_x := width * titleSafe; box_y := height * titleSafe;
     box_width := width * (1 - 2 * titleSafe);
     box_height := height * (1 - 2 * titleSafe) |}.

Definition crosshairs : list Line :=
  [ {| x1 := width * 0.5 - width * 0.03; y1 := height * 0.5;
       x2 := width * 0.5 + width * 0.03; y2 := height * 0.5 |};
    {| x1 := width * 0.5; y1 := height * 0.5 - height * 0.03;
       x2 := width * 0.5; y2 := height * 0.5 + height * 0.03 |} ].

Definition gridCircle : Circle :=
  {| cx := width * 0.5; cy := height * 0.5; r := Qmin width height * 0.02 |}.

Definition corners : list (Q * Q) := [(0, 0); (1, 0); (0, 1); (1, 1)].

(** The two marks of a corner of the action safe area: first the vertical
    one, then the horizontal one. *)
Definition cornerMarks (corner : Q * Q) : list Line :=
  let '(cx, cy) := corner in
  [ {| x1 := width * actionSafe + (cx * width * (1 - 2 * actionSafe));
       y1 := height * actionSafe + (cy * height * (1 - 2 * actionSafe))
             + (if Qeq_bool cy 0 then 0 else - height * 0.02);
       x2 := width * actionSafe + (cx * width * (1 - 2 * actionSafe));
       y2 := height * actionSafe + (cy * height * (1 - 2 * actionSafe))
             + (if Qeq_bool cy 0 then height * 0.02 else 0) |};
    {| x1 := width * actionSafe + (cx * width * (1 - 2 * actionSafe))
             + (if Qeq_bool cx 0 then 0 else - width * 0.02);
       y1 := height * actionSafe + (cy * height * (1 - 2 * actionSafe));
       x2 := width * actionSafe + (cx * width * (1 - 2 * actionSafe))
             + (if Qeq_bool cx 0 then width * 0.02 else 0);
       y2 := height * actionSafe + (cy * height * (1 - 2 * actionSafe)) |} ].

Definition cornerMarkers : list Line := flat_map cornerMarks corners.

(** Both ends of a line lie within a box. *)
Definition lineWithin (l : Line) (b : Box) : Prop :=
  (box_x b <= x1 l /\ x1 l <= rightEdge b) /\ (box_x b <= x2 l /\ x2 l <= rightEdge b)
  /\ (box_y b <= y1 l /\ y1 l <= bottom b) /\ (box_y b <= y2 l /\ y2 l <= bottom b).

(** *** Sync QR panel *)

Section QrPanel.
Variable qrSize : Z.

Definition qrCell : Q := Qmax 2 (Qmin width height * 0.0065).
Definition qrRenderSize : Q := inject_Z qrSize * qrCell.
Definition qrX : Q := width * 0.02.
Definition qrPanelPadding : Q := qrCell * 1.1.
Definition qrLabelHeight : Q := height * 0.038.
Definition qrPanelWidth : Q := qrRenderSize + qrPanelPadding * 2.
Definition qrPanelHeight : Q := qrRenderSize + qrPanelPadding * 2 + qrLabelHeight.
Definition qrY : Q := (height - qrPanelHeight) / 2.

Definition qrPanel : Box :=
  {| box_x := qrX; box_y := qrY; box_width := qrPanelWidth; box_height := qrPanelHeight |}.

Definition qrImage : Box :=
  {| box_x := qrX + qrPanelPadding; box_y := qrY + qrPanelPadding;
     box_width := qrRenderSize; box_height := qrRenderSize |}.
End QrPanel.

(** *** Info overlay *)

Section InfoPanel.
Variables nativeWidth nativeHeight : Q.
Variable displays : nat.            (* [getTimeDisplays().length] *)
Variable customText : string.
Variable customImage : option string.
Variable hAlign : HAlign.
Variable vAlign : VAlign.

(** The display is scaled: native differs from rendered. *)
Definition isScaled : bool :=
  ColorBars.gtb nativeWidth 0 && ColorBars.gtb nativeHeight 0
  && (negb (Qeq_bool nativeWidth width) || negb (Qeq_bool nativeHeight height)).

Definition rowHeight : Q := height * 0.045.
Definition gap : Q := height * 0.015.
Definition margin : Q := height * 0.02.
Definition extraRows : Q := if isScaled then 1 else 0.
Definition totalRows : Q := ofIndex displays + 2 + extraRows.
Definition boxWidth : Q := width * 0.28.
Definition infoBoxHeight : Q := rowHeight * totalRows + height * 0.025.
Definition textBoxHeight : Q := if truthy customText then height * 0.05 else 0.
Definition imgBoxHeight : Q := if present customImage then height * 0.12 else 0.
Definition totalStackHeight : Q :=
  infoBoxHeight + textBoxHeight + imgBoxHeight
  + (if truthy customText then gap else 0) + (if present customImage then gap else 0).
Definition stackStartY : Q :=
  match vAlign with
  | VTop => margin
  | VBottom => height - totalStackHeight - margin
  | VCenter => (height - totalStackHeight) / 2
  end.
Definition textBoxY : Q := stackStartY.
Definition imgBoxY : Q :=
  stackStartY + (if truthy customText then textBoxHeight + gap else 0).
Definition boxY : Q :=
  stackStartY + (if truthy customText then textBoxHeight + gap else 0)
  + (if present customImage then imgBoxHeight + gap else 0).
Definition boxX : Q :=
  match hAlign with
  | HLeft => margin
  | HRight => width - boxWidth - margin
  | HCenter => width * 0.5 - boxWidth / 2
  end.
Definition textCenterX : Q :=
  match hAlign with
  | HLeft => margin + boxWidth / 2
  | HRight => width - margin - boxWidth / 2
  | HCenter => width * 0.5
  end.
Definition outRowY : Q := boxY + height * 0.012 + rowHeight * 0.5.
Definition nativeRowY : Q := boxY + height * 0.012 + rowHeight * 1.5.
Definition fpsRowY : Q := boxY + height * 0.012 + rowHeight * (if isScaled then 2.5 else 1.5).
Definition timeStartRow : Q := if isScaled then 3 else 2.
Definition imgBoxWidth : Q := width * 0.12.
Definition imgBoxX : Q :=
  match hAlign with
  | HLeft => margin + (boxWidth - imgBoxWidth) / 2
  | HRight => width - margin - boxWidth + (boxWidth - imgBoxWidth) / 2
  | HCenter => width * 0.5 - imgBoxWidth / 2
  end.

(** The time row of the [i]-th display. *)
Definition rowY (i : nat) : Q :=
  boxY + height * 0.012 + rowHeight * (ofIndex i + timeStartRow + 0.5).

(** The background rectangles, when drawn. *)
Definition textBox : option Box :=
  if truthy customText then
    Some {| box_x := boxX; box_y := textBoxY; box_width := boxWidth;
            box_height := textBoxHeight |}
  else None.

Definition imgBox : option Box :=
  if present customImage then
    Some {| box_x := imgBoxX; box_y := imgBoxY; box_width := imgBoxWidth;
            box_height := imgBoxHeight |}
  else None.

Definition infoBox : Box :=
  {| box_x := boxX; box_y := boxY; box_width := boxWidth; box_height := infoBoxHeight |}.

(** The baselines of the text rows of the info box, top to bottom. *)
Definition rowYs : list Q :=
  [outRowY] ++ (if isScaled then [nativeRowY] else []) ++ [fpsRowY]
  ++ map rowY (seq 0 displays).

(** The background rectangles that are drawn, top to bottom. *)
Definition stackBoxes : list Box :=
  (match textBox with Some b => [b] | None => [] end)
  ++ (match imgBox with Some b => [b] | None => [] end) ++ [infoBox].

(** Boxes that follow one another downwards from [top], [gap] apart. *)
Fixpoint stackedFrom (top : Q) (boxes : list Box) : Prop :=
  match boxes with
  | [] => True
  | b :: rest => box_y b == top /\ stackedFrom (bottom b + gap) rest
  end.
End InfoPanel.

End Canvas.

(** *** Spinner flash

    The crosshair and starburst are drawn when the spinner is shown and
    [spinnerPhaseMs < spinnerFlashFrameMs]. *)
Definition flashShown (props : ColorBars.Props) (s : ColorBars.Spinner) : bool :=
  ColorBars.showSpinner props
  && ColorBars.gtb (ColorBars.spinnerFlashFrameMs s) (inject_Z (ColorBars.spinnerPhaseMs s)).

(** The bouncing ball as drawn. *)
Definition ballCircle (props : ColorBars.Props) (st : ColorBars.State) : Circle :=
  {| cx := ColorBars.ballX (ColorBars.ball st); cy := ColorBars.ballY props;
     r := ColorBars.ballRadius props |}.

(** The shimmer polygon, its four points in order. *)
Definition shimmerPolygon (props : ColorBars.Props) (st : ColorBars.State) : list (Q * Q) :=
  let sx := ColorBars.shimmerX st in
  let skew := ColorBars.height props in
  [ (sx, ColorBars.height props);
    (sx + ColorBars.shimmerWidth props, ColorBars.height props);
    (sx + ColorBars.shimmerWidth props + skew, 0);
    (sx + skew, 0) ].

End Overlay.

(** ** Formatting of a date and repeated syncs (timeSync.ts, lines 20-92) *)

Module TimeFormat.

Local Open Scope string_scope.

Definition getUTCFullYear (t : Z) : Z := fst (fst (JsDate.civil (JsDate.Day t))).
Definition getUTCMonth (t : Z) : Z := (snd (fst (JsDate.civil (JsDate.Day t))) - 1)%Z.
Definition getUTCDate (t : Z) : Z := snd (JsDate.civil (JsDate.Day t)).

(** [formatTime(date, includeMs)] on a valid date. *)
Definition formatTime (date : Z) (includeMs : bool) : string :=
  let hours := JsString.padStart 2 "0" (JsString.toString (JsDate.getUTCHours date)) in
  let minutes := JsString.padStart 2 "0" (JsString.toString (JsDate.getUTCMinutes date)) in
  let seconds := JsString.padStart 2 "0" (JsString.toString (JsDate.getUTCSeconds date)) in
  if includeMs then
    let ms := JsString.padStart 3 "0" (JsString.toString (JsDate.getUTCMilliseconds date)) in
    hours ++ ":" ++ minutes ++ ":" ++ seconds ++ "." ++ ms
  else hours ++ ":" ++ minutes ++ ":" ++ seconds.

(** [formatDate(date)] on a valid date. *)
Definition formatDate (date : Z) : string :=
  let year := getUTCFullYear date in
  let month := JsString.padStart 2 "0" (JsString.toString (getUTCMonth date + 1)) in
  let day := JsString.padStart 2 "0" (JsString.toString (getUTCDate date)) in
  JsString.toString year ++ "-" ++ month ++ "-" ++ day.

(** [getTimeData()]: a copy of the record. *)
Definition getTimeData (s : TimeSync.Store) : TimeSync.TimeData :=
  {| TimeSync.serverTime := TimeSync.serverTime (TimeSync.timeData s);
     TimeSync.offset := TimeSync.offset (TimeSync.timeData s);
     TimeSync.lastSync := TimeSync.lastSync (TimeSync.timeData s);
     TimeSync.synced := TimeSync.synced (TimeSync.timeData s) |}.

(** Calls of [syncTime] that each settle before the next one starts. *)
Definition syncs (s : TimeSync.Store) (calls : list (TimeSync.Fetched * TimeSync.Readings))
  : TimeSync.Store :=
  fold_left (fun s call => TimeSync.syncTime s (fst call) (snd call)) calls s.

(** The offset that a settled successful call stores. *)
Definition measured (d : TimeSync.Date) (c : TimeSync.Readings) : TimeSync.Num :=
  TimeSync.sub
    (TimeSync.add (TimeSync.getTime d)
       (Some ((inject_Z (TimeSync.requestEnd c) - inject_Z (TimeSync.requestStart c)) / 2)))
    (TimeSync.ofInt (TimeSync.localTimestamp c)).

(** The offset of the last successful call of a list, [start] if none. *)
Fixpoint lastMeasured (start : TimeSync.Num)
  (calls : list (TimeSync.Fetched * TimeSync.Readings)) : TimeSync.Num :=
  match calls with
  | [] => start
  | (TimeSync.Body d, c) :: rest => lastMeasured (measured d c) rest
  | _ :: rest => lastMeasured start rest
  end.

End TimeFormat.

(** ** The page that hosts the component (routes/+page.svelte, the third
    part of the source file) *)

Module Page.

Import Overlay.

Record Resolution := {
  res_name : string; res_width : Q; res_height : Q; aspect : string
}.

Definition resolutions : list Resolution :=
  [ {| res_name := "Fit Display"; res_width := 0; res_height := 0; aspect := "auto" |};
    {| res_name := "SD 480p"; res_width := 720; res_height := 480; aspect := "3:2" |};
    {| res_name := "HD 720p"; res_width := 1280; res_height := 720; aspect := "16:9" |};
    {| res_name := "1080p"; res_width := 1920; res_height := 1080; aspect := "16:9" |};
    {| res_name := "2K"; res_width := 2048; res_height := 1080; aspect := "1.9:1" |};
    {| res_name := "1440p"; res_width := 2560; res_height := 1440; aspect := "16:9" |};
    {| res_name := "4K UHD"; res_width := 3840; res_height := 2160; aspect := "16:9" |};
    {| res_name := "4K DCI"; res_width := 4096; res_height := 2160; aspect := "1.9:1" |};
    {| res_name := "8K UHD"; res_width := 7680; res_height := 4320; aspect := "16:9" |} ].

Record Timezone := { value : string; zone_label : string; zone_name : string }.

Definition timezones : list Timezone :=
  [ {| value := "Pacific/Honolulu"; zone_label := "HST"; zone_name := "Hawaii" |};
    {| value := "America/Anchorage"; zone_label := "AKST"; zone_name := "Alaska" |};
    {| value := "America/Los_Angeles"; zone_label := "PST"; zone_name := "Pacific" |};
    {| value := "America/Denver"; zone_label := "MST"; zone_name := "Mountain" |};
    {| value := "America/Chicago"; zone_label := "CST"; zone_name := "Central" |};
    {| value := "America/New_York"; zone_label := "EST"; zone_name := "Eastern" |};
    {| value := "America/Sao_Paulo"; zone_label := "BRT"; zone_name := "Brasilia" |};
    {| value := "Europe/London"; zone_label := "GMT"; zone_name := "London" |};
    {| value := "Europe/Paris"; zone_label := "CET"; zone_name := "Paris" |};
    {| value := "Europe/Moscow"; zone_label := "MSK"; zone_name := "Moscow" |};
    {| value := "Asia/Dubai"; zone_label := "GST"; zone_name := "Dubai" |};
    {| value := "Asia/Kolkata"; zone_label := "IST"; zone_name := "India" |};
    {| value := "Asia/Shanghai"; zone_label := "CST"; zone_name := "China" |};
    {| value := "Asia/Tokyo"; zone_label := "JST"; zone_name := "Tokyo" |};
    {| value := "Australia/Sydney"; zone_label := "AEST"; zone_name := "Sydney" |} ].

(** The variables of the script. *)
Record State := {
  resolution : Resolution;
  containerWidth : Q;
  containerHeight : Q;
  nativeWidth : Q;
  nativeHeight : Q;
  isFullscreen : bool;
  ballEnabled : bool;
  spinnerEnabled : bool;
  syncQrEnabled : bool;
  shimmerEnabled : bool;
  gridEnabled : bool;
  frameEnabled : bool;
  actualSizeMode : bool;
  showUtcTime : bool;
  showLocalTime : bool;
  showRemoteTime : bool;
  selectedTimezone : string;
  customText : string;
  customImage : option string;
  hAlign : HAlign;
  vAlign : VAlign;
  textScale : Q;
  settingsLoaded : bool
}.

Definition fitDisplay : Resolution :=
  {| res_name := "Fit Display"; res_width := 0; res_height := 0; aspect := "auto" |}.

(** The variables as declared; [resolutions[0]] is [fitDisplay]. *)
Definition declared : State :=
  {| resolution := fitDisplay;
     containerWidth := 1920; containerHeight := 1080; nativeWidth := 0; nativeHeight := 0;
     isFullscreen := false;
     ballEnabled := false; spinnerEnabled := false; syncQrEnabled := false;
     shimmerEnabled := false; gridEnabled := false; frameEnabled := false;
     actualSizeMode := false;
     showUtcTime := true; showLocalTime := false; showRemoteTime := false;
     selectedTimezone := "America/New_York";
     customText := ""; customImage := None;
     hAlign := HCenter; vAlign := VCenter; textScale := 1; settingsLoaded := false |}.

(** Actual dimensions used, either fixed or from the container. *)
Definition actualWidth (st : State) : Q :=
  if Qeq_bool (res_width (resolution st)) 0 then containerWidth st
  else res_width (resolution st).

Definition actualHeight (st : State) : Q :=
  if Qeq_bool (res_height (resolution st)) 0 then containerHeight st
  else res_height (resolution st).

(** Zoom level for fixed resolutions. *)
Definition scalePercent (st : State) : Z :=
  if Qeq_bool (res_width (resolution st)) 0 then 100%Z
  else
    let scaleX := containerWidth st / res_width (resolution st) in
    let scaleY := containerHeight st / res_height (resolution st) in
    let scale := Qmin scaleX scaleY in
    round (scale * 100).

Definition getRemoteTimezone (st : State) : option ColorBars.RemoteTimezone :=
  if negb (showRemoteTime st) then None
  else
    match find (fun t => String.eqb (value t) (selectedTimezone st)) timezones with
    | None => None
    | Some tz =>
        Some {| ColorBars.tz_label := zone_label tz;
                ColorBars.timezone := selectedTimezone st |}
    end.

(** The props that the page passes to the component, as far as the model
    of the component reads them. *)
Definition componentProps (st : State) : ColorBars.Props :=
  {| ColorBars.width := actualWidth st;
     ColorBars.height := actualHeight st;
     ColorBars.showBall := ballEnabled st;
     ColorBars.showSpinner := spinnerEnabled st;
     ColorBars.showSyncQr := syncQrEnabled st;
     ColorBars.showShimmer := shimmerEnabled st;
     ColorBars.showUtc := showUtcTime st;
     ColorBars.showLocal := showLocalTime st;
     ColorBars.remoteTimezone := getRemoteTimezone st |}.

(** *** Settings persistence *)

(** The settings object as read back from JSON: a key that is missing, or
    holds [null], is [None]. *)
Record Settings := {
  s_resolution : option string;
  s_ball : option bool;
  s_spinner : option bool;
  s_syncQr : option bool;
  s_shimmer : option bool;
  s_grid : option bool;
  s_frame : option bool;
  s_showUtc : option bool;
  s_showLocal : option bool;
  s_showRemote : option bool;
  s_timezone : option string;
  s_customText : option string;
  s_hAlign : option HAlign;
  s_vAlign : option VAlign;
  s_textScale : option Q
}.

(** What [JSON.parse] makes of a stored text. *)
Inductive Json :=
| Unparsable                 (* [JSON.parse] throws *)
| JsonNull                   (* [null]: reading a property throws *)
| JsonObject (o : Settings).

(** The item of [localStorage] under [STORAGE_KEY]: [None] when there is
    none or it is the empty text, else the text by what it parses to.
    [JSON.stringify] of an object of booleans, strings and finite numbers is
    read back by [JSON.parse] as the same object. *)
Definition Storage := option Json.

(** [a ?? b] *)
Definition orDefault {A : Type} (a : option A) (b : A) : A :=
  match a with Some v => v | None => b end.

Definition saveSettings (browser : bool) (st : State) (storage : Storage) : Storage :=
  if negb browser then storage
  else
    Some (JsonObject
      {| s_resolution := Some (res_name (resolution st));
         s_ball := Some (ballEnabled st);
         s_spinner := Some (spinnerEnabled st);
         s_syncQr := Some (syncQrEnabled st);
         s_shimmer := Some (shimmerEnabled st);
         s_grid := Some (gridEnabled st);
         s_frame := Some (frameEnabled st);
         s_showUtc := Some (showUtcTime st);
         s_showLocal := Some (showLocalTime st);
         s_showRemote := Some (showRemoteTime st);
         s_timezone := Some (selectedTimezone st);
         s_customText := Some (customText st);
         s_hAlign := Some (hAlign st);
         s_vAlign := Some (vAlign st);
         s_textScale := Some (textScale st) |}).

Definition loadSettings (browser : bool) (storage : Storage) (st : State) : State :=
  if negb browser then st
  else
    match storage with
    | None => st
    | Some Unparsable => st
    | Some JsonNull => st
    | Some (JsonObject settings) =>
        let foundRes :=
          find (fun r => match s_resolution settings with
                         | Some name => String.eqb (res_name r) name
                         | None => false
                         end) resolutions in
        {| resolution := match foundRes with Some res => res | None => resolution st end;
           containerWidth := containerWidth st;
           containerHeight := containerHeight st;
           nativeWidth := nativeWidth st;
           nativeHeight := nativeHeight st;
           isFullscreen := isFullscreen st;
           ballEnabled := orDefault (s_ball settings) false;
           spinnerEnabled := orDefault (s_spinner settings) false;
           syncQrEnabled := orDefault (s_syncQr settings) false;
           shimmerEnabled := orDefault (s_shimmer settings) false;
           gridEnabled := orDefault (s_grid settings) false;
           frameEnabled := orDefault (s_frame settings) false;
           actualSizeMode := actualSizeMode st;
           showUtcTime := orDefault (s_showUtc settings) true;
           showLocalTime := orDefault (s_showLocal settings) false;
           showRemoteTime := orDefault (s_showRemote settings) false;
           selectedTimezone := orDefault (s_timezone settings) "America/New_York"%string;
           customText := orDefault (s_customText settings) ""%string;
           customImage := customImage st;
           hAlign := orDefault (s_hAlign settings) HCenter;
           vAlign := orDefault (s_vAlign settings) VCenter;
           textScale := orDefault (s_textScale settings) 1;
           settingsLoaded := settingsLoaded st |}
    end.

(** *** Fullscreen and resize *)

(** [handleFullscreenChange]: [fullscreenElement] tells whether the document
    has a fullscreen element; the hint and its timer are left out. *)
Definition handleFullscreenChange
  (fullscreenElement : bool) (screenWidth screenHeight devicePixelRatio : Q) (st : State)
  : State :=
  let dpr := if Qeq_bool devicePixelRatio 0 then 1 else devicePixelRatio in
  {| resolution := resolution st;
     containerWidth := if fullscreenElement then screenWidth else containerWidth st;
     containerHeight := if fullscreenElement then screenHeight else containerHeight st;
     nativeWidth := if fullscreenElement then inject_Z (floor (screenWidth * dpr)) else 0;
     nativeHeight := if fullscreenElement then inject_Z (floor (screenHeight * dpr)) else 0;
     isFullscreen := fullscreenElement;
     ballEnabled := ballEnabled st;
     spinnerEnabled := spinnerEnabled st;
     syncQrEnabled := syncQrEnabled st;
     shimmerEnabled := shimmerEnabled st;
     gridEnabled := gridEnabled st;
     frameEnabled := frameEnabled st;
     actualSizeMode := actualSizeMode st;
     showUtcTime := showUtcTime st;
     showLocalTime := showLocalTime st;
     showRemoteTime := showRemoteTime st;
     selectedTimezone := selectedTimezone st;
     customText := customText st;
     customImage := customImage st;
     hAlign := hAlign st;
     vAlign := vAlign st;
     textScale := textScale st;
     settingsLoaded := settingsLoaded st |}.

(** Whether the component, given the page's dimensions, reports scaling. *)
Definition reportsScaling (st : State) : bool :=
  Overlay.isScaled (actualWidth st) (actualHeight st) (nativeWidth st) (nativeHeight st).

End Page.

(** ** Sequences of frames *)

Module Frames.

(** [n] frames, [d] ms apart, the first one [d] ms after [u]. *)
Definition steady (u d : Q) (n : nat) : list Q :=
  map (fun k => u + ofIndex (S k) * d) (seq 0 n).

(** The FPS variables after the frames at the given timestamps. *)
Definition counted (f : ColorBars.Fps) (timestamps : list Q) : ColorBars.Fps :=
  fold_left ColorBars.updateFps timestamps f.

End Frames.

(** * Properties *)

(** Division by a literal, as a product, so that [lra] sees it. *)
Ltac inv_consts :=
  unfold Qdiv in *;
  repeat match goal with
         | |- context [ / ?c ] =>
             is_ground c; let v := eval vm_compute in (/ c) in change (/ c) with v
         | H : context [ / ?c ] |- _ =>
             is_ground c; let v := eval vm_compute in (/ c) in change (/ c) with v in H
         end.

(** Unfolding of a row down to the arithmetic of its fields. *)
Ltac row_fields :=
  unfold ofIndex in *; cbn -[Qplus Qmult Qdiv Qminus Qinv Qopp Qmin inject_Z] in *;
  repeat match goal with
         | |- context [ inject_Z ?z ] => is_ground z; change (inject_Z z) with (z # 1)
         end.

Ltac qarith := row_fields; inv_consts; lra.

(** ** The bar rows *)

Section BarRows.
Import Layout.
Variables W H : Q.

Lemma totalWidthUnits_8 : totalWidthUnits == 8.
Proof. reflexivity. Qed.

Lemma unit_widths : map width pluGeRow = [1; 1; 1; 1; 0.5; 1; 0.5; 2].
Proof. reflexivity. Qed.

(** The offsets of the eight PLUGE segments and the end of the row. *)
Lemma getPlugeX_table :
  Forall2 Qeq (map (getPlugeX W) (seq 0 9))
    [0; W / 8; 2 * (W / 8); 3 * (W / 8); 4 * (W / 8); 4.5 * (W / 8);
     5.5 * (W / 8); 6 * (W / 8); W].
Proof. repeat constructor; unfold getPlugeX, totalWidthUnits; qarith. Qed.

Lemma getPlugeX_step (i : nat) :
  0 <= W -> getPlugeX W i <= getPlugeX W (S i).
Proof.
  intros HW.
  do 9 (destruct i as [|i]; [unfold getPlugeX, totalWidthUnits; qarith|]).
  unfold getPlugeX, totalWidthUnits; qarith.
Qed.

Lemma getPlugeX_monotone (i j : nat) :
  0 <= W -> (i <= j)%nat -> getPlugeX W i <= getPlugeX W j.
Proof.
  intros HW Hij. induction Hij as [|j _ IH].
  - apply Qle_refl.
  - eapply Qle_trans; [exact IH | now apply getPlugeX_step].
Qed.

Lemma checked_barRows : Checked.barRows W H = Some (barRows W H).
Proof. reflexivity. Qed.

Lemma mainBars_sum : Qsum (map rect_width (mainBarRects W H)) == W + 7.
Proof. qarith. Qed.
End BarRows.

(** C1, as stated, fails: with a canvas of width 0 (and height 0) the rows
    hold rectangles that are not of width 0. *)
Lemma degenerate_rows_not_zero_width :
  ~ Forall (fun r => Layout.rect_width r == 0) (Layout.barRows 0 0).
Proof. intros F. inversion F as [|r l Hr _]. discriminate Hr. Qed.

(** C1, amended: for a canvas of width 0 or height 0 (as for any other) the
    three rows are computed without a failing division (no divisor depends on
    the canvas, so every coordinate is a finite number) and hold their 22
    rectangles; with height 0 each rectangle has y = 0 and height 0; with
    width 0 each rectangle has x = 0 and width exactly 1, the overlap that is
    added to every segment. *)
Theorem degenerate_rows (W H : Q) :
  Checked.barRows W H = Some (Layout.barRows W H)
  /\ List.length (Layout.barRows W H) = 22%nat
  /\ (H == 0 ->
      Forall (fun r => Layout.y r == 0 /\ Layout.rect_height r == 0) (Layout.barRows W H))
  /\ (W == 0 ->
      Forall (fun r => Layout.x r == 0 /\ Layout.rect_width r == 1) (Layout.barRows W H)).
Proof.
  split; [apply checked_barRows|]. split; [reflexivity|]. split; intros Hz.
  - repeat constructor; unfold Layout.plugeY, Layout.plugeHeight; qarith.
  - repeat constructor;
      unfold Layout.getPlugeX, Layout.unitWidth, Layout.totalWidthUnits; qarith.
Qed.

Lemma degenerate_rows_witness :
  Forall (fun r => Layout.y r == 0 /\ Layout.rect_height r == 0) (Layout.barRows 0 0)
  /\ Forall (fun r => Layout.x r == 0 /\ Layout.rect_width r == 1) (Layout.barRows 0 0).
Proof.
  destruct (degenerate_rows 0 0) as (_ & _ & Hh & Hw).
  split; [apply Hh | apply Hw]; reflexivity.
Defined.

(** C2, as stated, fails: on a canvas of width 7 the seven widths sum to 14,
    which is 7 away from the width of the canvas. *)
Lemma mainBars_sum_not_within_1 :
  0 < 7 /\ ~ Qabs (Qsum (map Layout.rect_width (Layout.mainBarRects 7 10)) - 7) <= 1.
Proof. split; [reflexivity|]. apply Qlt_not_le. reflexivity. Qed.

(** C2, amended: for every canvas width W the seven main bars are drawn at
    x = (W/7)*i with width W/7 + 1; their widths sum to W + 7, that is 7
    units, one overlap per segment, above W; the right edge of the last
    segment is W + 1, within 1 unit of W. *)
Theorem mainBars_widths (W H : Q) :
  Forall2 (fun r i => Layout.x r == (W / 7) * ofIndex i /\ Layout.rect_width r == W / 7 + 1)
          (Layout.mainBarRects W H) (seq 0 7)
  /\ Qsum (map Layout.rect_width (Layout.mainBarRects W H)) == W + 7
  /\ Qabs (Qsum (map Layout.rect_width (Layout.mainBarRects W H)) - W) == 7
  /\ exists r, Layout.lastRect (Layout.mainBarRects W H) = Some r
              /\ Layout.right r == W + 1
              /\ Qabs (Layout.right r - W) <= 1.
Proof.
  split; [repeat constructor; reflexivity|].
  split; [apply mainBars_sum|].
  split.
  - setoid_replace (Qsum (map Layout.rect_width (Layout.mainBarRects W H)) - W) with 7.
    + reflexivity.
    + rewrite mainBars_sum. ring.
  - eexists. split; [reflexivity|].
    assert (E : Layout.right
                  {| Layout.x := W / 7 * ofIndex 6; Layout.y := 0;
                     Layout.rect_width := W / 7 + 1; Layout.rect_height := H * 0.67;
                     Layout.fill := "#0000b4" |} == W + 1)
      by (unfold Layout.right; qarith).
    split; [exact E|].
    setoid_replace (Layout.right
                  {| Layout.x := W / 7 * ofIndex 6; Layout.y := 0;
                     Layout.rect_width := W / 7 + 1; Layout.rect_height := H * 0.67;
                     Layout.fill := "#0000b4" |} - W) with 1 by (rewrite E; ring).
    discriminate.
Qed.

(** C7: the PLUGE row has unit widths 1,1,1,1,0.5,1,0.5,2, which sum to 8;
    for every canvas width W > 0 the offsets getPlugeX are non-decreasing in
    the index, segment i is drawn at getPlugeX(i) with width
    unit * (W/8) + 1, and the last segment ends at W before the overlap and
    at W + 1 with it, within 1 unit of W. *)
Theorem pluge_row (W H : Q) :
  0 < W ->
  map Layout.width Layout.pluGeRow = [1; 1; 1; 1; 0.5; 1; 0.5; 2]
  /\ Layout.totalWidthUnits == 8
  /\ (forall i j : nat, (i <= j)%nat -> Layout.getPlugeX W i <= Layout.getPlugeX W j)
  /\ Forall2 (fun r si => Layout.x r = Layout.getPlugeX W (snd si)
                          /\ Layout.rect_width r == Layout.width (fst si) * (W / 8) + 1)
             (Layout.plugeRects W H) (combine Layout.pluGeRow (seq 0 8))
  /\ exists r seg, Layout.lastRect (Layout.plugeRects W H) = Some r
                  /\ nth_error Layout.pluGeRow 7 = Some seg
                  /\ Layout.x r + Layout.width seg * (W / 8) == W
                  /\ Layout.right r == W + 1
                  /\ Layout.right r - W <= 1.
Proof.
  intros HW.
  split; [reflexivity|]. split; [reflexivity|].
  split; [intros i j Hij; apply getPlugeX_monotone; [lra | exact Hij]|].
  split.
  - repeat constructor; unfold Layout.unitWidth, Layout.totalWidthUnits; qarith.
  - do 2 eexists. split; [reflexivity|]. split; [reflexivity|].
    repeat split;
      unfold Layout.right, Layout.getPlugeX, Layout.unitWidth, Layout.totalWidthUnits;
      qarith.
Qed.

Lemma pluge_row_witness :
  0 < 8 /\ exists r, Layout.lastRect (Layout.plugeRects 8 6) = Some r /\ Layout.right r == 9.
Proof.
  split; [reflexivity|].
  destruct (pluge_row 8 6 eq_refl) as (_ & _ & _ & _ & r & seg & Hr & _ & _ & He & _).
  exists r. split; [exact Hr | exact He].
Defined.

(** ** Time synchronisation *)

Section FailedSync.
Import TimeSync.

Lemma settle_failed (s : Store) (r : Fetched) (c : Readings) :
  failed r = true ->
  settle s r c =
    {| timeData := {| serverTime := serverTime (timeData s);
                      offset := offset (timeData s);
                      lastSync := lastSync (timeData s);
                      synced := false |};
       syncInProgress := false |}.
Proof. destruct r; simpl; intros F; [reflexivity .. | discriminate F]. Qed.

Lemma syncTime_failed (s : Store) (r : Fetched) (c : Readings) :
  syncInProgress s = false -> failed r = true ->
  timeData (syncTime s r c) =
    {| serverTime := serverTime (timeData s); offset := offset (timeData s);
       lastSync := lastSync (timeData s); synced := false |}.
Proof.
  intros Hidle F. unfold syncTime, begin. rewrite Hidle.
  rewrite (settle_failed _ r c F). reflexivity.
Qed.
End FailedSync.


(** C10: when the fetch of a sync fails (the fetch is rejected, the response
    is not ok, or the body does not parse), only [synced] changes, to false:
    the stored offset, serverTime and lastSync are kept, so for every value
    of the local clock getSyncedTime answers the same instant before and
    after the failed sync. *)
Theorem failed_sync_keeps_offset
  (s : TimeSync.Store) (r : TimeSync.Fetched) (c : TimeSync.Readings) :
  TimeSync.syncInProgress s = false ->
  TimeSync.failed r = true ->
  let s' := TimeSync.syncTime s r c in
  TimeSync.synced (TimeSync.timeData s') = false
  /\ TimeSync.offset (TimeSync.timeData s') = TimeSync.offset (TimeSync.timeData s)
  /\ TimeSync.serverTime (TimeSync.timeData s') = TimeSync.serverTime (TimeSync.timeData s)
  /\ TimeSync.lastSync (TimeSync.timeData s') = TimeSync.lastSync (TimeSync.timeData s)
  /\ forall now : Z, TimeSync.getSyncedTime s' now = TimeSync.getSyncedTime s now.
Proof.
  intros Hidle F s'. subst s'.
  unfold TimeSync.getSyncedTime. rewrite (syncTime_failed s r c Hidle F). simpl.
  repeat split; reflexivity.
Qed.

Lemma failed_sync_keeps_offset_witness :
  let c := {| TimeSync.requestStart := 1000; TimeSync.requestEnd := 1101;
              TimeSync.localTimestamp := 1102; TimeSync.lastSyncNow := 1102 |} in
  let s := TimeSync.syncTime (TimeSync.initial 900) (TimeSync.Body (Some 5000%Z)) c in
  let s' := TimeSync.syncTime s TimeSync.ResponseNotOk c in
  TimeSync.offset (TimeSync.timeData s) = Some (5000 + (1101 - 1000) / 2 - 1102)
  /\ TimeSync.offset (TimeSync.timeData s') = TimeSync.offset (TimeSync.timeData s)
  /\ TimeSync.getSyncedTime s' 2000 = Some 5948%Z.
Proof.
  intros c s s'. split; [reflexivity|].
  destruct (failed_sync_keeps_offset s TimeSync.ResponseNotOk c eq_refl eq_refl)
    as (_ & Hoff & _ & _ & Hget).
  split; [exact Hoff|]. rewrite Hget. reflexivity.
Defined.

(** ** One tick of the animation *)

Section Tick.
Import ColorBars.
Variable env : Env.
Variable props : Props.

(** What [updateQr] does, by cases on the test that guards the encoder. *)
Lemma updateQr_cases (q : Qr) (now : Z) (w : World) :
  (showSyncQr props = true /\ tokenOf now <> qrToken q
   /\ let label := payload env props (JsDate.toISOString now) (frameField (frameOf now)) in
      updateQr env props q now w =
        ({| qrSize := snd (encodeQr env label); qrToken := tokenOf now; qrLabel := label;
            qrDataUrl := fst (encodeQr env label) |},
         {| clock := clock w; reads := reads w; encoded := label :: encoded w |}))
  \/ ((showSyncQr props = false \/ tokenOf now = qrToken q)
      /\ updateQr env props q now w = (q, w)).
Proof.
  unfold updateQr. destruct (showSyncQr props).
  - destruct (Z.eqb_spec (tokenOf now) (qrToken q)) as [E | N]; simpl.
    + right. split; [right; exact E | reflexivity].
    + left. repeat split; [exact N].
  - right. split; [left|]; reflexivity.
Qed.

Lemma updateQr_world (q : Qr) (now : Z) (w : World) :
  clock (snd (updateQr env props q now w)) = clock w
  /\ reads (snd (updateQr env props q now w)) = reads w.
Proof.
  destruct (updateQr_cases q now w) as [(_ & _ & E) | (_ & E)]; simpl in E; rewrite E;
    split; reflexivity.
Qed.

(** [updateAnimation], block by block. *)
Lemma updateAnimation_fields (timestamp : Q) (st : State) (w : World) :
  let now := clock w (reads w) in
  let delta := deltaMs (frames st) timestamp in
  let r := updateAnimation env props timestamp st w in
  currentTime (fst r) = now
  /\ frames (fst r) = updateFps (frames st) timestamp
  /\ ball (fst r) = updateBall props (ball st) delta
  /\ spinner (fst r) = updateSpinner props (spinner st) now delta
  /\ shimmerX (fst r) = updateShimmer props (shimmerX st) delta
  /\ (qr (fst r), snd r) =
       updateQr env props (qr st) now
         {| clock := clock w; reads := S (reads w); encoded := encoded w |}.
Proof.
  unfold updateAnimation, bind, getSyncedTime, ret; simpl.
  destruct (updateQr env props (qr st) (clock w (reads w)) _) as [q w']; simpl.
  repeat split; reflexivity.
Qed.

Lemma updateAnimation_world (timestamp : Q) (st : State) (w : World) :
  clock (snd (updateAnimation env props timestamp st w)) = clock w
  /\ reads (snd (updateAnimation env props timestamp st w)) = S (reads w).
Proof.
  destruct (updateAnimation_fields timestamp st w) as (_ & _ & _ & _ & _ & E).
  pose proof (updateQr_world (qr st) (clock w (reads w))
                {| clock := clock w; reads := S (reads w); encoded := encoded w |}) as Hw.
  rewrite <- E in Hw. exact Hw.
Qed.

Lemma run_cons (timestamp : Q) (rest : list Q) (st : State) (w : World) :
  run env props (timestamp :: rest) st w =
  run env props rest (fst (updateAnimation env props timestamp st w))
                     (snd (updateAnimation env props timestamp st w)).
Proof.
  simpl. unfold bind. destruct (updateAnimation env props timestamp st w); reflexivity.
Qed.

(** A property kept by every tick holds after any run. *)
Lemma run_invariant (P : State -> Prop) :
  (forall timestamp st w, P st -> P (fst (updateAnimation env props timestamp st w))) ->
  forall timestamps st w, P st -> P (fst (run env props timestamps st w)).
Proof.
  intros Hstep timestamps. induction timestamps as [|timestamp rest IH]; intros st w HP.
  - exact HP.
  - rewrite run_cons. apply IH, Hstep, HP.
Qed.

Lemma mounted_eq (t0 : Z) (timestamps : list Q) (w : World) :
  mounted env props t0 timestamps w =
  run env props timestamps (fst (onMount env props t0 w)) (snd (onMount env props t0 w)).
Proof. reflexivity. Qed.

End Tick.

(** ** The ball *)

Section BallPhysics.
Import ColorBars.
Variable env : Env.
Variable props : Props.
Hypothesis positive_width : 0 < width props.

Lemma radius_le : ballRadius props <= width props - ballRadius props.
Proof.
  unfold ballRadius. pose proof (Q.le_min_l (width props) (height props)). lra.
Qed.

Lemma radius_lt : ballRadius props < width props - ballRadius props.
Proof.
  unfold ballRadius. pose proof (Q.le_min_l (width props) (height props)). lra.
Qed.

Lemma onMount_inBounds (t0 : Z) (w : World) :
  inBounds props (ball (fst (onMount env props t0 w))).
Proof.
  unfold inBounds; cbn [onMount bind generateSyncDataUrl ret fst ball ballX ballDirection declared].
  pose proof radius_le.
  split; [lra|]. split; [lra | left; reflexivity].
Qed.

Lemma updateBall_inBounds (b : Ball) (delta : Q) :
  inBounds props b -> inBounds props (updateBall props b delta).
Proof.
  intros (Hlo & Hhi & Hdir). pose proof radius_le as Hr.
  unfold updateBall, geb, leb. destruct (showBall props); [|repeat split; assumption].
  destruct (Qle_bool _ _) eqn:G.
  - unfold inBounds; cbn [ballX ballDirection].
    repeat split; [lra | lra | right; reflexivity].
  - destruct (Qle_bool _ (ballRadius props)) eqn:L.
    + unfold inBounds; cbn [ballX ballDirection].
      repeat split; [lra | lra | left; reflexivity].
    + unfold inBounds; cbn [ballX ballDirection]. assert (~ _ <= _) as G' by (rewrite <- Qle_bool_iff, G; discriminate).
      assert (~ _ <= ballRadius props) as L' by (rewrite <- Qle_bool_iff, L; discriminate).
      repeat split; [lra | lra | exact Hdir].
Qed.

(** After mounting and any frames, the ball is in bounds. *)
Lemma mounted_inBounds (t0 : Z) (timestamps : list Q) (w : World) :
  inBounds props (ball (fst (mounted env props t0 timestamps w))).
Proof.
  rewrite mounted_eq.
  apply (run_invariant env props (fun st => inBounds props (ball st))).
  - intros timestamp st w' Hst.
    destruct (updateAnimation_fields env props timestamp st w') as (_ & _ & E & _).
    rewrite E. apply updateBall_inBounds, Hst.
  - apply onMount_inBounds.
Qed.

(** The branch taken decides the new position and direction. *)
Lemma updateBall_contact (b : Ball) (delta : Q) :
  match contact props b delta with
  | NoContact => ballDirection (updateBall props b delta) = ballDirection b
  | RightBound => updateBall props b delta =
                    {| ballX := width props - ballRadius props; ballDirection := -1 |}
  | LeftBound => updateBall props b delta =
                   {| ballX := ballRadius props; ballDirection := 1 |}
  end.
Proof.
  unfold contact, updateBall. destruct (showBall props); [|reflexivity].
  destruct (geb _ _); [reflexivity|]. destruct (leb _ _); reflexivity.
Qed.

(** With time elapsed, the right bound is met only when moving right and
    the left bound only when moving left. *)
Lemma contact_direction (b : Ball) (delta : Q) :
  inBounds props b -> 0 < delta ->
  match contact props b delta with
  | NoContact => True
  | RightBound => ballDirection b = 1%Z
  | LeftBound => ballDirection b = (-1)%Z
  end.
Proof.
  intros (Hlo & Hhi & Hdir) Hdelta. pose proof radius_le as Hr.
  assert (0 < width props * delta) as Hp by (apply Qmult_lt_0_compat; assumption).
  unfold contact, geb, leb, ballSpeed. destruct (showBall props); [|exact I].
  destruct (Qle_bool _ _) eqn:G.
  - apply Qle_bool_iff in G. destruct Hdir as [E | E]; [exact E|].
    exfalso. rewrite E in G. inv_consts. change (inject_Z (-1)) with (-1 # 1) in G. lra.
  - destruct (Qle_bool _ (ballRadius props)) eqn:L; [|exact I].
    apply Qle_bool_iff in L. destruct Hdir as [E | E]; [|exact E].
    exfalso. rewrite E in L. inv_consts. change (inject_Z 1) with (1 # 1) in L. lra.
Qed.

End BallPhysics.

(** C3, as stated, fails at a frame delta of 0: after the frames at 1000 ms
    and 11000 ms the ball rests on the right bound with direction -1; a
    frame with the same timestamp 11000 (deltas 16.67, 10000 and 0, none
    negative) meets the right bound again and leaves the direction as it
    is. *)
Lemma ball_contact_without_flip :
  let mount := fst (ColorBars.mounted Fixture.env Fixture.props 0 [] Fixture.steady) in
  let first := fst (ColorBars.mounted Fixture.env Fixture.props 0 [1000] Fixture.steady) in
  let st := fst (ColorBars.mounted Fixture.env Fixture.props 0 [1000; 11000] Fixture.steady) in
  let st' := fst (ColorBars.updateAnimation Fixture.env Fixture.props 11000 st Fixture.steady) in
  0 < ColorBars.width Fixture.props
  /\ ColorBars.deltaMs (ColorBars.frames mount) 1000 == 16.67
  /\ ColorBars.deltaMs (ColorBars.frames first) 11000 == 10000
  /\ ColorBars.deltaMs (ColorBars.frames st) 11000 == 0
  /\ ColorBars.contact Fixture.props (ColorBars.ball st)
       (ColorBars.deltaMs (ColorBars.frames st) 11000) = ColorBars.RightBound
  /\ ColorBars.ballDirection (ColorBars.ball st) = (-1)%Z
  /\ ColorBars.ballDirection (ColorBars.ball st') = (-1)%Z.
Proof. vm_compute. repeat split; reflexivity. Qed.

(** C3, amended: for every canvas width W > 0, after mounting and any finite
    sequence of frames, ballX lies within [ballRadius, W - ballRadius] and
    ballDirection is -1 or +1; a frame assigns the direction at most once:
    without contact it keeps it, on contact with a bound the position is set
    exactly to that bound and the direction points away from it (-1 at the
    right bound, +1 at the left), which, when the frame delta is strictly
    positive, is exactly one flip of the direction. *)
Theorem ball_bounds_and_bounce
  (env : ColorBars.Env) (props : ColorBars.Props) (t0 : Z) (timestamps : list Q)
  (w : ColorBars.World) :
  0 < ColorBars.width props ->
  let st := fst (ColorBars.mounted env props t0 timestamps w) in
  (ColorBars.ballRadius props <= ColorBars.ballX (ColorBars.ball st)
   /\ ColorBars.ballX (ColorBars.ball st) <= ColorBars.width props - ColorBars.ballRadius props)
  /\ (ColorBars.ballDirection (ColorBars.ball st) = 1
      \/ ColorBars.ballDirection (ColorBars.ball st) = -1)%Z
  /\ forall (timestamp : Q) (w' : ColorBars.World),
       let delta := ColorBars.deltaMs (ColorBars.frames st) timestamp in
       let st' := fst (ColorBars.updateAnimation env props timestamp st w') in
       match ColorBars.contact props (ColorBars.ball st) delta with
       | ColorBars.NoContact =>
           ColorBars.ballDirection (ColorBars.ball st') = ColorBars.ballDirection (ColorBars.ball st)
       | ColorBars.RightBound =>
           ColorBars.ballX (ColorBars.ball st') = ColorBars.width props - ColorBars.ballRadius props
           /\ ColorBars.ballDirection (ColorBars.ball st') = (-1)%Z
           /\ (0 < delta ->
               ColorBars.ballDirection (ColorBars.ball st')
               = (- ColorBars.ballDirection (ColorBars.ball st))%Z)
       | ColorBars.LeftBound =>
           ColorBars.ballX (ColorBars.ball st') = ColorBars.ballRadius props
           /\ ColorBars.ballDirection (ColorBars.ball st') = 1%Z
           /\ (0 < delta ->
               ColorBars.ballDirection (ColorBars.ball st')
               = (- ColorBars.ballDirection (ColorBars.ball st))%Z)
       end.
Proof.
  intros HW st.
  pose proof (mounted_inBounds env props HW t0 timestamps w) as Hin. fold st in Hin.
  destruct Hin as (Hlo & Hhi & Hdir).
  split; [split; assumption|]. split; [exact Hdir|].
  intros timestamp w' delta st'.
  destruct (updateAnimation_fields env props timestamp st w') as (_ & _ & E & _).
  fold st' delta in E.
  pose proof (updateBall_contact props (ColorBars.ball st) delta) as Hc.
  pose proof (fun Hd => contact_direction props HW (ColorBars.ball st) delta
                          (conj Hlo (conj Hhi Hdir)) Hd) as Hd.
  destruct (ColorBars.contact props (ColorBars.ball st) delta); rewrite E.
  - exact Hc.
  - rewrite Hc. repeat split. intros Hpos. rewrite (Hd Hpos). reflexivity.
  - rewrite Hc. repeat split. intros Hpos. rewrite (Hd Hpos). reflexivity.
Qed.

Lemma ball_bounds_and_bounce_witness :
  0 < ColorBars.width Fixture.props
  /\ ColorBars.ballX (ColorBars.ball
       (fst (ColorBars.mounted Fixture.env Fixture.props 0 [1000; 11000] Fixture.steady)))
     <= ColorBars.width Fixture.props - ColorBars.ballRadius Fixture.props.
Proof.
  split; [reflexivity|].
  exact (proj2 (proj1 (ball_bounds_and_bounce Fixture.env Fixture.props 0 [1000; 11000]
                         Fixture.steady eq_refl))).
Defined.

Lemma last_nonempty (A : Type) (l : list A) (x d1 d2 : A) :
  last (x :: l) d1 = last (x :: l) d2.
Proof. revert x. induction l as [|y l IH]; intros x; [reflexivity | exact (IH y)]. Qed.

(** The frame before the next one: its timestamp is what [lastFrameTime]
    holds, 0 when no frame has run. *)
Lemma run_lastFrameTime (env : ColorBars.Env) (props : ColorBars.Props)
  (timestamps : list Q) :
  forall (st : ColorBars.State) (w : ColorBars.World),
    ColorBars.lastFrameTime (ColorBars.frames (fst (ColorBars.run env props timestamps st w)))
    = last timestamps (ColorBars.lastFrameTime (ColorBars.frames st)).
Proof.
  induction timestamps as [|timestamp rest IH]; intros st w; [reflexivity|].
  rewrite run_cons, IH.
  destruct (updateAnimation_fields env props timestamp st w) as (_ & E & _).
  rewrite E.
  assert (ColorBars.lastFrameTime (ColorBars.updateFps (ColorBars.frames st) timestamp)
          = timestamp) as ->
    by (unfold ColorBars.updateFps; destruct (ColorBars.geb _ _); reflexivity).
  destruct rest as [|next rest]; [reflexivity|].
  exact (last_nonempty Q rest next timestamp _).
Qed.

(** C8, as stated, fails in a tick with no elapsed time.  After the frames
    at 1000, 11000 and 21000 ms the ball rests on the left bound with
    direction +1; in a further frame with the timestamp 21000 the time
    elapsed since the previous frame is 0, the position meets the left bound
    and is set to it, and the direction is +1 as before: it is not
    inverted. *)
Lemma ball_clamped_without_inversion :
  let st := fst (ColorBars.mounted Fixture.env Fixture.props 0 [1000; 11000; 21000]
                   Fixture.steady) in
  let st' := fst (ColorBars.updateAnimation Fixture.env Fixture.props 21000 st
                    Fixture.steady) in
  let deltaSeconds := (21000 - ColorBars.lastFrameTime (ColorBars.frames st)) / 1000 in
  let moved := ColorBars.ballX (ColorBars.ball st)
               + (ColorBars.width Fixture.props / 2)
                 * inject_Z (ColorBars.ballDirection (ColorBars.ball st)) * deltaSeconds in
  deltaSeconds == 0
  /\ ColorBars.deltaMs (ColorBars.frames st) 21000 / 1000 == deltaSeconds
  /\ moved <= ColorBars.ballRadius Fixture.props
  /\ ColorBars.ballX (ColorBars.ball st') == ColorBars.ballRadius Fixture.props
  /\ ColorBars.ballDirection (ColorBars.ball st) = 1%Z
  /\ ColorBars.ballDirection (ColorBars.ball st') = 1%Z.
Proof. vm_compute. repeat split; reflexivity || discriminate. Qed.

(** C8, amended: the ball moves by velocity integration.  The velocity is
    width/2 pixels per second; in a frame the position advances by
    velocity * direction * deltaSeconds, where the delta is the time elapsed
    since the previous frame when that frame had a positive timestamp, and
    the nominal 16.67 ms otherwise, as in the first frame.  When the advanced
    position reaches the right bound at the radius offset the position is
    set to that bound and the direction to -1; when it reaches the left
    bound the position is set to that bound and the direction to +1;
    otherwise the advanced position is kept with the direction.  With a
    positive delta the direction set at a bound is the inverse of the
    direction before. *)
Theorem ball_velocity_integration
  (env : ColorBars.Env) (props : ColorBars.Props) (t0 : Z) (timestamps : list Q)
  (w w' : ColorBars.World) (timestamp : Q) :
  0 < ColorBars.width props ->
  ColorBars.showBall props = true ->
  let st := fst (ColorBars.mounted env props t0 timestamps w) in
  let previous := last timestamps 0 in
  let delta := ColorBars.deltaMs (ColorBars.frames st) timestamp in
  let deltaSeconds := delta / 1000 in
  let velocity := ColorBars.width props / 2 in
  let direction := ColorBars.ballDirection (ColorBars.ball st) in
  let moved := ColorBars.ballX (ColorBars.ball st) + velocity * inject_Z direction * deltaSeconds in
  let left := ColorBars.ballRadius props in
  let right := ColorBars.width props - ColorBars.ballRadius props in
  let ball' := ColorBars.ball (fst (ColorBars.updateAnimation env props timestamp st w')) in
  ColorBars.ballSpeed props = velocity
  /\ (0 < previous -> delta = timestamp - previous)
  /\ (previous <= 0 -> delta = 16.67)
  /\ (right <= moved ->
      ColorBars.ballX ball' = right /\ ColorBars.ballDirection ball' = (-1)%Z
      /\ (0 < delta -> ColorBars.ballDirection ball' = (- direction)%Z))
  /\ (moved <= left ->
      ColorBars.ballX ball' = left /\ ColorBars.ballDirection ball' = 1%Z
      /\ (0 < delta -> ColorBars.ballDirection ball' = (- direction)%Z))
  /\ (left < moved /\ moved < right ->
      ColorBars.ballX ball' = moved /\ ColorBars.ballDirection ball' = direction).
Proof.
  intros HW Hshow st previous delta deltaSeconds velocity direction moved left right ball'.
  pose proof (mounted_inBounds env props HW t0 timestamps w) as Hin. fold st in Hin.
  pose proof (radius_lt props HW) as Hr. fold right left in Hr.
  assert (ColorBars.lastFrameTime (ColorBars.frames st) = previous) as Hlast.
  { unfold st, previous. rewrite mounted_eq, run_lastFrameTime. reflexivity. }
  destruct (updateAnimation_fields env props timestamp st w') as (_ & _ & E & _).
  fold ball' delta in E.
  pose proof (contact_direction props HW (ColorBars.ball st) delta Hin) as Hc.
  unfold ColorBars.contact in Hc. unfold ColorBars.updateBall in E.
  rewrite Hshow in E, Hc. unfold ColorBars.geb, ColorBars.leb in E, Hc.
  change (ColorBars.ballSpeed props) with velocity in E, Hc.
  fold direction deltaSeconds in E, Hc. fold moved right left in E, Hc.
  split; [reflexivity|].
  split.
  { intros Hprev. unfold delta, ColorBars.deltaMs, ColorBars.gtb. rewrite Hlast.
    destruct (Qle_bool previous 0) eqn:G; [|reflexivity].
    apply Qle_bool_iff in G. lra. }
  split.
  { intros Hprev. unfold delta, ColorBars.deltaMs, ColorBars.gtb. rewrite Hlast.
    apply Qle_bool_iff in Hprev. rewrite Hprev. reflexivity. }
  destruct (Qle_bool right moved) eqn:G.
  - rewrite E; cbn [ColorBars.ballX ColorBars.ballDirection].
    cbv beta iota in Hc. apply Qle_bool_iff in G.
    split; [intros _; split; [reflexivity|]; split; [reflexivity|];
            intros Hpos; rewrite (Hc Hpos); reflexivity|].
    split; intros; exfalso; lra.
  - assert (~ right <= moved) as G' by (rewrite <- Qle_bool_iff, G; discriminate).
    destruct (Qle_bool moved left) eqn:L.
    + rewrite E; cbn [ColorBars.ballX ColorBars.ballDirection].
      cbv beta iota in Hc. apply Qle_bool_iff in L.
      split; [intros; exfalso; lra|].
      split; [intros _; split; [reflexivity|]; split; [reflexivity|];
              intros Hpos; rewrite (Hc Hpos); reflexivity|].
      intros; exfalso; lra.
    + assert (~ moved <= left) as L' by (rewrite <- Qle_bool_iff, L; discriminate).
      rewrite E; cbn [ColorBars.ballX ColorBars.ballDirection].
      split; [intros; exfalso; lra|].
      split; [intros; exfalso; lra|].
      intros _; split; reflexivity.
Qed.

Lemma ball_velocity_integration_witness :
  let first := ColorBars.ball
                 (fst (ColorBars.mounted Fixture.env Fixture.props 0 [1000] Fixture.steady)) in
  let st := fst (ColorBars.mounted Fixture.env Fixture.props 0 [1000] Fixture.steady) in
  let ball' := ColorBars.ball
                 (fst (ColorBars.updateAnimation Fixture.env Fixture.props 1016 st
                         Fixture.steady)) in
  ColorBars.deltaMs (ColorBars.frames (fst (ColorBars.mounted Fixture.env Fixture.props 0 []
                                              Fixture.steady))) 1000 = 16.67
  /\ ColorBars.ballX first == 27 + 960 * (16.67 / 1000)
  /\ ColorBars.deltaMs (ColorBars.frames st) 1016 = 1016 - 1000
  /\ ColorBars.ballX ball' == 27 + 960 * (16.67 / 1000) + 960 * (16 / 1000)
  /\ ColorBars.ballDirection ball' = 1%Z.
Proof.
  intros first st ball'.
  split.
  { exact (proj1 (proj2 (proj2 (ball_velocity_integration Fixture.env Fixture.props 0 []
                                  Fixture.steady Fixture.steady 1000 eq_refl eq_refl)))
             ltac:(unfold Qle; simpl; lia)). }
  split; [reflexivity|].
  destruct (ball_velocity_integration Fixture.env Fixture.props 0 [1000] Fixture.steady
              Fixture.steady 1016 eq_refl eq_refl)
    as (_ & Hdelta & _ & _ & _ & Hmid).
  split; [exact (Hdelta eq_refl)|].
  destruct Hmid as [Hx Hd]; [split; reflexivity|].
  split; [|exact Hd].
  unfold ball', st. rewrite Hx. reflexivity.
Defined.

(** ** The spinner *)

Lemma phaseOf_mod (t : Z) : ColorBars.phaseOf t = (t mod 5000)%Z.
Proof.
  unfold ColorBars.phaseOf, ColorBars.spinnerCycleMs.
  Z.quot_rem_to_equations. Z.div_mod_to_equations. lia.
Qed.

(** C4: with the spinner shown, the phase after a tick is the instant read
    in that tick modulo 5000 ms, in [0, 5000), and the angle is
    (phase / 5000) * 360; both are the same for any other tick that reads the
    same instant, whatever its prior state, its timestamp and the history of
    its clock. *)
Theorem spinner_phase_of_instant
  (env : ColorBars.Env) (props : ColorBars.Props) (timestamp : Q)
  (st : ColorBars.State) (w : ColorBars.World) :
  ColorBars.showSpinner props = true ->
  let now := ColorBars.clock w (ColorBars.reads w) in
  let s' := ColorBars.spinner (fst (ColorBars.updateAnimation env props timestamp st w)) in
  ColorBars.spinnerPhaseMs s' = (now mod 5000)%Z
  /\ (0 <= ColorBars.spinnerPhaseMs s' < 5000)%Z
  /\ ColorBars.spinnerAngle s' = (inject_Z (ColorBars.spinnerPhaseMs s') / 5000) * 360
  /\ (0 <= ColorBars.spinnerAngle s' /\ ColorBars.spinnerAngle s' < 360)
  /\ forall (timestamp2 : Q) (st2 : ColorBars.State) (w2 : ColorBars.World),
       ColorBars.clock w2 (ColorBars.reads w2) = now ->
       let s2 := ColorBars.spinner
                   (fst (ColorBars.updateAnimation env props timestamp2 st2 w2)) in
       ColorBars.spinnerPhaseMs s2 = ColorBars.spinnerPhaseMs s'
       /\ ColorBars.spinnerAngle s2 = ColorBars.spinnerAngle s'.
Proof.
  intros Hshow now s'.
  destruct (updateAnimation_fields env props timestamp st w) as (_ & _ & _ & E & _).
  fold s' now in E. unfold ColorBars.updateSpinner in E. rewrite Hshow in E.
  assert (0 <= now mod 5000 < 5000)%Z as Hb by (apply Z.mod_pos_bound; lia).
  rewrite E; cbn [ColorBars.spinnerPhaseMs ColorBars.spinnerAngle].
  rewrite phaseOf_mod.
  split; [reflexivity|]. split; [exact Hb|]. split; [reflexivity|]. split.
  - unfold ColorBars.angleOf, ColorBars.spinnerCycleMs.
    change (inject_Z 5000) with (5000 # 1). inv_consts.
    assert (0 <= inject_Z (now mod 5000) /\ inject_Z (now mod 5000) < 5000) as [H0 H1].
    { split; [change 0 with (inject_Z 0); rewrite <- Zle_Qle; lia
             | change 5000 with (inject_Z 5000); rewrite <- Zlt_Qlt; lia]. }
    split; lra.
  - intros timestamp2 st2 w2 Hnow.
    destruct (updateAnimation_fields env props timestamp2 st2 w2)
      as (_ & _ & _ & E2 & _).
    unfold ColorBars.updateSpinner in E2. rewrite Hshow, Hnow in E2.
    rewrite E2; cbn [ColorBars.spinnerPhaseMs ColorBars.spinnerAngle].
    rewrite phaseOf_mod. split; reflexivity.
Qed.

Lemma spinner_phase_of_instant_witness :
  ColorBars.showSpinner Fixture.props = true
  /\ ColorBars.spinnerPhaseMs
       (ColorBars.spinner
          (fst (ColorBars.updateAnimation Fixture.env Fixture.props 1000
                  (ColorBars.declared 0) Fixture.steady)))
     = (1704067200500 mod 5000)%Z.
Proof.
  split; [reflexivity|].
  exact (proj1 (spinner_phase_of_instant Fixture.env Fixture.props 1000
                  (ColorBars.declared 0) Fixture.steady eq_refl)).
Defined.

(** ** The sync QR beacon *)

Lemma tokenOf_div (t : Z) : ColorBars.tokenOf t = (t / 1000)%Z.
Proof.
  unfold ColorBars.tokenOf, floor, Qdiv, Qmult, Qinv, inject_Z; simpl.
  rewrite Z.mul_1_r. reflexivity.
Qed.

(** Between two answers of a clock that does not step back, every answer
    lies between them. *)
Lemma between_ends (c : nat -> Z) (n : nat) :
  (forall k, (k < n)%nat -> (c k <= c (S k))%Z) ->
  forall k, (k <= n)%nat -> (c 0%nat <= c k <= c n)%Z.
Proof.
  intros Hmono.
  assert (forall i j, (i <= j)%nat -> (j <= n)%nat -> (c i <= c j)%Z) as Hle.
  { intros i j Hij. induction Hij as [|j Hij IH]; intros Hj; [lia|].
    specialize (IH ltac:(lia)). specialize (Hmono j ltac:(lia)). lia. }
  intros k Hk. split; apply Hle; lia.
Qed.

Section Beacon.
Import ColorBars.
Variable env : Env.
Variable props : Props.
Hypothesis beacon_shown : showSyncQr props = true.

(** A tick encodes a payload exactly when the second it reads differs from
    the stored token, and then stores that second. *)
Lemma tick_qr (timestamp : Q) (st : State) (w : World) :
  let now := clock w (reads w) in
  let r := updateAnimation env props timestamp st w in
  let label := payload env props (JsDate.toISOString now) (frameField (frameOf now)) in
  (tokenOf now <> qrToken (qr st)
   /\ encoded (snd r) = label :: encoded w
   /\ qrLabel (qr (fst r)) = label /\ qrToken (qr (fst r)) = tokenOf now)
  \/ (tokenOf now = qrToken (qr st)
      /\ encoded (snd r) = encoded w /\ qr (fst r) = qr st).
Proof.
  intros now r label.
  destruct (updateAnimation_fields env props timestamp st w) as (_ & _ & _ & _ & _ & E).
  fold r now in E.
  destruct (updateQr_cases env props (qr st) now
              {| clock := clock w; reads := S (reads w); encoded := encoded w |})
    as [(_ & N & E') | ([F | T] & E')].
  - left. cbv zeta in E'. rewrite E' in E. injection E as Eq Ew. rewrite Eq, Ew.
    split; [exact N|]. repeat split.
  - rewrite beacon_shown in F. discriminate F.
  - right. rewrite E' in E. injection E as Eq Ew. rewrite Eq, Ew.
    split; [exact T|]. split; reflexivity.
Qed.

(** Frames that all read the stored second encode nothing. *)
Lemma run_same_second (timestamps : list Q) :
  forall (st : State) (w : World),
    (forall k, (k < List.length timestamps)%nat ->
               tokenOf (clock w (reads w + k)) = qrToken (qr st)) ->
    encoded (snd (run env props timestamps st w)) = encoded w
    /\ qr (fst (run env props timestamps st w)) = qr st.
Proof.
  induction timestamps as [|timestamp rest IH]; intros st w Hsame.
  - split; reflexivity.
  - rewrite run_cons.
    pose proof (Hsame 0%nat ltac:(simpl; lia)) as H0. rewrite Nat.add_0_r in H0.
    destruct (tick_qr timestamp st w) as [(N & _) | (_ & Hw & Hq)]; [contradiction|].
    destruct (updateAnimation_world env props timestamp st w) as (Hc & Hr).
    destruct (IH (fst (updateAnimation env props timestamp st w))
                 (snd (updateAnimation env props timestamp st w))) as (IHw & IHq).
    + intros k Hk. rewrite Hc, Hr, Hq.
      replace (S (reads w) + k)%nat with (reads w + S k)%nat by lia.
      apply Hsame. simpl. lia.
    + rewrite IHw, IHq. split; assumption.
Qed.

End Beacon.

(** C5, as stated, fails when the synchronised clock steps back: three ticks
    read 1704067200.900 s, 1704067199.950 s and 1704067200.000 s; the first
    and the third observe the same integer second, and yet a payload is
    encoded at the second tick and again at the third. *)
Lemma qr_twice_within_one_second :
  let mount := ColorBars.onMount Fixture.env Fixture.props 0 Fixture.steppingBack in
  let first := ColorBars.updateAnimation Fixture.env Fixture.props 1000 (fst mount) (snd mount) in
  let last := ColorBars.run Fixture.env Fixture.props [1016; 1033] (fst first) (snd first) in
  ColorBars.showSyncQr Fixture.props = true
  /\ ColorBars.tokenOf (ColorBars.clock Fixture.steppingBack 2)
     = ColorBars.tokenOf (ColorBars.clock Fixture.steppingBack 0)
  /\ ColorBars.encoded (snd last)
     = "2024-01-01T00:00:00.000Z|1920x1080|f00"%string
       :: "2023-12-31T23:59:59.950Z|1920x1080|f28"%string
       :: ColorBars.encoded (snd first).
Proof. vm_compute. repeat split; reflexivity. Qed.

(** C5, amended: while the sync QR is shown and the instants read by
    successive ticks do not decrease, a tick whose instant has another
    integer second than the stored token encodes a payload exactly once and
    stores that second, a tick whose instant has the stored second encodes
    nothing, and between two ticks that read instants of the same integer
    second no payload is encoded and the token and payload stay as the first
    of the two left them. *)
Theorem qr_once_per_second
  (env : ColorBars.Env) (props : ColorBars.Props) (timestamp : Q) (timestamps : list Q)
  (st : ColorBars.State) (w : ColorBars.World) :
  ColorBars.showSyncQr props = true ->
  let instant k := ColorBars.clock w (ColorBars.reads w + k) in
  (forall k, (k < List.length timestamps)%nat -> (instant k <= instant (S k))%Z) ->
  ColorBars.tokenOf (instant (List.length timestamps)) = ColorBars.tokenOf (instant 0%nat) ->
  let first := ColorBars.updateAnimation env props timestamp st w in
  let last := ColorBars.run env props timestamps (fst first) (snd first) in
  (ColorBars.tokenOf (instant 0%nat) <> ColorBars.qrToken (ColorBars.qr st) ->
   exists label, ColorBars.encoded (snd first) = label :: ColorBars.encoded w
                 /\ ColorBars.qrLabel (ColorBars.qr (fst first)) = label
                 /\ ColorBars.qrToken (ColorBars.qr (fst first)) = ColorBars.tokenOf (instant 0%nat))
  /\ (ColorBars.tokenOf (instant 0%nat) = ColorBars.qrToken (ColorBars.qr st) ->
      ColorBars.encoded (snd first) = ColorBars.encoded w
      /\ ColorBars.qr (fst first) = ColorBars.qr st)
  /\ ColorBars.encoded (snd last) = ColorBars.encoded (snd first)
  /\ ColorBars.qr (fst last) = ColorBars.qr (fst first).
Proof.
  intros Hshow instant Hmono Hends first last.
  assert (instant 0%nat = ColorBars.clock w (ColorBars.reads w)) as H0
    by (unfold instant; rewrite Nat.add_0_r; reflexivity).
  pose proof (tick_qr env props Hshow timestamp st w) as Htick.
  fold first in Htick. rewrite <- H0 in Htick.
  assert (ColorBars.qrToken (ColorBars.qr (fst first)) = ColorBars.tokenOf (instant 0%nat))
    as Htoken.
  { destruct Htick as [(_ & _ & _ & T) | (T & _ & Q)]; [exact T | rewrite Q; symmetry; exact T]. }
  split; [|split].
  - intros N. destruct Htick as [(_ & Hw & Hl & T) | (T & _)]; [|contradiction].
    eexists. split; [exact Hw | split; [exact Hl | exact T]].
  - intros T. destruct Htick as [(N & _) | (_ & Hw & Hq)]; [contradiction|].
    split; assumption.
  - destruct (updateAnimation_world env props timestamp st w) as (Hc & Hr).
    fold first in Hc, Hr.
    apply (run_same_second env props Hshow).
    intros k Hk. rewrite Hc, Hr, Htoken.
    replace (S (ColorBars.reads w) + k)%nat with (ColorBars.reads w + S k)%nat by lia.
    fold (instant (S k)).
    pose proof (between_ends instant (List.length timestamps) Hmono (S k) ltac:(lia)) as Hb.
    rewrite !tokenOf_div in *.
    pose proof (Z.div_le_mono _ _ 1000 ltac:(lia) (proj1 Hb)).
    pose proof (Z.div_le_mono _ _ 1000 ltac:(lia) (proj2 Hb)).
    lia.
Qed.

Lemma qr_once_per_second_witness :
  let first := ColorBars.updateAnimation Fixture.env Fixture.props 1000
                 (ColorBars.declared 0) Fixture.steady in
  let last := ColorBars.run Fixture.env Fixture.props [1016; 1033] (fst first) (snd first) in
  ColorBars.showSyncQr Fixture.props = true
  /\ ColorBars.encoded (snd last) = ColorBars.encoded (snd first).
Proof.
  intros first last. split; [reflexivity|].
  pose proof (qr_once_per_second Fixture.env Fixture.props 1000 [1016; 1033]
                (ColorBars.declared 0) Fixture.steady eq_refl) as H.
  cbv zeta in H.
  assert (forall k : nat,
             (k < List.length [1016; 1033])%nat ->
             (ColorBars.clock Fixture.steady (ColorBars.reads Fixture.steady + k) <=
              ColorBars.clock Fixture.steady (ColorBars.reads Fixture.steady + S k))%Z) as M.
  { intros k Hk. cbn [ColorBars.clock ColorBars.reads Fixture.steady Nat.add]. lia. }
  exact (proj1 (proj2 (proj2 (H M eq_refl)))).
Defined.

(** ** A tick as a function of the instant it reads *)

Lemma updateQr_state (env : ColorBars.Env) (props : ColorBars.Props) (q : ColorBars.Qr)
  (now : Z) (w w2 : ColorBars.World) :
  fst (ColorBars.updateQr env props q now w) = fst (ColorBars.updateQr env props q now w2).
Proof.
  destruct (updateQr_cases env props q now w) as [(S1 & N1 & E1) | (C1 & E1)];
    destruct (updateQr_cases env props q now w2) as [(S2 & N2 & E2) | (C2 & E2)];
    cbv zeta in *; rewrite E1, E2; try reflexivity.
  - destruct C2 as [F | T]; [congruence | contradiction].
  - destruct C1 as [F | T]; [congruence | contradiction].
Qed.

Lemma state_eq (a b : ColorBars.State) :
  ColorBars.currentTime a = ColorBars.currentTime b ->
  ColorBars.frames a = ColorBars.frames b ->
  ColorBars.ball a = ColorBars.ball b ->
  ColorBars.spinner a = ColorBars.spinner b ->
  ColorBars.qr a = ColorBars.qr b ->
  ColorBars.shimmerX a = ColorBars.shimmerX b ->
  a = b.
Proof. destruct a, b; simpl; intros; subst; reflexivity. Qed.

(** ** The timecode *)

Lemma pad2_twoDigits (n : Z) :
  (0 <= n < 100)%Z ->
  JsString.padStart 2 "0" (JsString.toString n) = Spec.twoDigits n.
Proof.
  intros Hn.
  assert (forallb (fun k => String.eqb (JsString.padStart 2 "0" (JsString.toString (Z.of_nat k)))
                                       (Spec.twoDigits (Z.of_nat k)))
                  (seq 0 100) = true) as Hall by (vm_compute; reflexivity).
  rewrite forallb_forall in Hall.
  specialize (Hall (Z.to_nat n)). rewrite Z2Nat.id in Hall by lia.
  apply String.eqb_eq, Hall, in_seq. lia.
Qed.

Lemma frames_floor (ms : Z) :
  floor ((inject_Z ms / 1000) * 30) = Spec.frameIndex ms.
Proof.
  unfold floor, Spec.frameIndex, Qdiv, Qmult, Qinv, inject_Z; simpl.
  rewrite Z.mul_1_r. reflexivity.
Qed.

Lemma frameIndex_bound (ms : Z) :
  (0 <= ms < 1000)%Z -> (0 <= Spec.frameIndex ms <= 29)%Z.
Proof. unfold Spec.frameIndex. intros Hms. Z.div_mod_to_equations. lia. Qed.

Lemma getTimecode_spec (env : ColorBars.Env) (t : Z) (useLocal : bool) :
  ColorBars.getTimecode env t useLocal
  = Spec.timecode (if useLocal then JsDate.LocalTime (ColorBars.localTZA env) t else t).
Proof.
  unfold ColorBars.getTimecode, Spec.timecode. rewrite frames_floor.
  set (lt := if useLocal then JsDate.LocalTime (ColorBars.localTZA env) t else t).
  replace (if useLocal then JsDate.getHours (ColorBars.localTZA env) t
           else JsDate.getUTCHours t) with ((lt / 3600000) mod 24)%Z
    by (unfold lt; destruct useLocal; reflexivity).
  replace (if useLocal then JsDate.getMinutes (ColorBars.localTZA env) t
           else JsDate.getUTCMinutes t) with ((lt / 60000) mod 60)%Z
    by (unfold lt; destruct useLocal; reflexivity).
  replace (if useLocal then JsDate.getSeconds (ColorBars.localTZA env) t
           else JsDate.getUTCSeconds t) with ((lt / 1000) mod 60)%Z
    by (unfold lt; destruct useLocal; reflexivity).
  replace (if useLocal then JsDate.getMilliseconds (ColorBars.localTZA env) t
           else JsDate.getUTCMilliseconds t) with (lt mod 1000)%Z
    by (unfold lt; destruct useLocal; reflexivity).
  rewrite !pad2_twoDigits; [reflexivity | | | | ].
  - pose proof (frameIndex_bound (lt mod 1000) ltac:(apply Z.mod_pos_bound; lia)). lia.
  - pose proof (Z.mod_pos_bound (lt / 1000) 60). lia.
  - pose proof (Z.mod_pos_bound (lt / 60000) 60). lia.
  - pose proof (Z.mod_pos_bound (lt / 3600000) 24). lia.
Qed.

(** C6: getTimecode formats an instant as HH:MM:SS:FF, the fields being the
    UTC ones when useLocal is false and the local ones when it is true, each
    written with 2 digits, and FF = floor((milliseconds / 1000) * 30), at most
    29; the instant 2024-01-01T00:00:00.500Z gives 00:00:00:15 in UTC, and
    every instant whose UTC milliseconds are 999 has the frame field 29. *)
Theorem getTimecode_format (env : ColorBars.Env) (t : Z) (useLocal : bool) :
  let fields := if useLocal then (t + ColorBars.localTZA env t)%Z else t in
  let frame := ((fields mod 1000) * 30 / 1000)%Z in
  ColorBars.getTimecode env t useLocal
  = (Spec.twoDigits ((fields / 3600000) mod 24) ++ ":"
       ++ Spec.twoDigits ((fields / 60000) mod 60) ++ ":"
       ++ Spec.twoDigits ((fields / 1000) mod 60) ++ ":" ++ Spec.twoDigits frame)%string
  /\ String.length (ColorBars.getTimecode env t useLocal) = 11%nat
  /\ (0 <= frame <= 29)%Z
  /\ JsDate.toISOString 1704067200500 = "2024-01-01T00:00:00.500Z"%string
  /\ ColorBars.getTimecode env 1704067200500 false = "00:00:00:15"%string
  /\ (JsDate.getUTCMilliseconds t = 999%Z ->
      substring 9 2 (ColorBars.getTimecode env t false) = "29"%string).
Proof.
  intros fields frame.
  split; [rewrite getTimecode_spec; reflexivity|].
  split; [rewrite getTimecode_spec; reflexivity|].
  split; [apply frameIndex_bound, Z.mod_pos_bound; lia|].
  split; [reflexivity|].
  split; [rewrite getTimecode_spec; reflexivity|].
  unfold JsDate.getUTCMilliseconds, JsDate.msFromTime, JsDate.msPerSecond. intros Hms.
  rewrite getTimecode_spec. unfold Spec.timecode. rewrite Hms. reflexivity.
Qed.

Lemma getTimecode_format_witness :
  JsDate.getUTCMilliseconds 1704067200999 = 999%Z
  /\ substring 9 2 (ColorBars.getTimecode Fixture.env 1704067200999 false) = "29"%string.
Proof.
  split; [reflexivity|].
  destruct (getTimecode_format Fixture.env 1704067200999 false)
    as (_ & _ & _ & _ & _ & Hframe).
  exact (Hframe eq_refl).
Defined.

(** In binary64 the frame index of every millisecond 0..999 is the one of
    the exact quotient. *)
Lemma frames_binary64 :
  forallb (fun ms => Binary64.floorIs (Binary64.frames ms)
                       (Z.to_nat (Spec.frameIndex (Z.of_nat ms))))
          (seq 0 1000) = true.
Proof. vm_compute. reflexivity. Qed.

(** In binary64 too a main bar of a canvas of width 0 has width 1, and the
    seven bars of a canvas of width 7 have widths that sum to 14. *)
Lemma mainBarWidth_binary64 :
  PrimFloat.eqb (Binary64.mainBarWidth (Binary64.ofNat 0)) (Binary64.ofNat 1) = true
  /\ PrimFloat.eqb
       (fold_left PrimFloat.add (repeat (Binary64.mainBarWidth (Binary64.ofNat 7)) 7)
                  (Binary64.ofNat 0))
       (Binary64.ofNat 14) = true.
Proof. split; vm_compute; reflexivity. Qed.

(** ** One clock reading per tick *)

Lemma fields_of_setUTCHours (t z : Z) :
  let d := JsDate.setUTCHours t (JsDate.HourFromTime z) (JsDate.MinFromTime z)
             (JsDate.SecFromTime z) (JsDate.msFromTime z) in
  JsDate.HourFromTime d = JsDate.HourFromTime z
  /\ JsDate.MinFromTime d = JsDate.MinFromTime z
  /\ JsDate.SecFromTime d = JsDate.SecFromTime z
  /\ JsDate.msFromTime d = JsDate.msFromTime z
  /\ JsDate.Day d = JsDate.Day t.
Proof.
  unfold JsDate.setUTCHours, JsDate.HourFromTime, JsDate.MinFromTime, JsDate.SecFromTime,
    JsDate.msFromTime, JsDate.Day, JsDate.msPerDay, JsDate.msPerHour, JsDate.msPerMinute,
    JsDate.msPerSecond.
  cbv zeta. repeat split; Z.div_mod_to_equations; lia.
Qed.

(** The frame field of the payload, in the words of the specification. *)
Lemma frameField_spec (now : Z) :
  ColorBars.frameField (ColorBars.frameOf now)
  = Spec.twoDigits (Spec.frameIndex (now mod 1000)).
Proof.
  unfold ColorBars.frameField, ColorBars.frameOf, JsDate.getUTCMilliseconds,
    JsDate.msFromTime, JsDate.msPerSecond.
  rewrite frames_floor. apply pad2_twoDigits.
  pose proof (frameIndex_bound (now mod 1000) ltac:(apply Z.mod_pos_bound; lia)). lia.
Qed.

(** The date of the remote display at an instant, for a zone that the host
    knows, and its timecode. *)
Lemma remoteTime_timecode
  (env : ColorBars.Env) (rz : ColorBars.RemoteTimezone) (tza : Z -> Z) (t : Z) :
  ColorBars.zoneTZA env (ColorBars.timezone rz) = Some tza ->
  exists d : Z,
    ColorBars.remoteTime env rz (Some t) = Some (Some d)
    /\ ColorBars.getTimecode env d false = Spec.timecode (t + tza t).
Proof.
  intros Hzone. unfold ColorBars.remoteTime. rewrite Hzone. eexists.
  split; [reflexivity|].
  destruct (fields_of_setUTCHours t (t + tza t)) as (Hh & Hm & Hs & Hms & _).
  rewrite getTimecode_spec. unfold Spec.timecode.
  unfold JsDate.HourFromTime, JsDate.MinFromTime, JsDate.SecFromTime, JsDate.msFromTime,
    JsDate.msPerHour, JsDate.msPerMinute, JsDate.msPerSecond in *.
  rewrite Hh, Hm, Hs, Hms. reflexivity.
Qed.

(** The timecodes of the info panel at an instant. *)
Lemma timecodesAt_instant (env : ColorBars.Env) (props : ColorBars.Props) (now : Z) :
  ColorBars.timecodesAt env props (Some now)
  = (if ColorBars.showUtc props then [Some (Spec.timecode now)] else [])
    ++ (if ColorBars.showLocal props
        then [Some (Spec.timecode (now + ColorBars.localTZA env now))] else [])
    ++ match ColorBars.remoteTimezone props with
       | Some rz =>
           [ match ColorBars.zoneTZA env (ColorBars.timezone rz) with
             | Some tza => Some (Spec.timecode (now + tza now))
             | None => None
             end ]
       | None => []
       end.
Proof.
  unfold ColorBars.timecodesAt, ColorBars.getTimeDisplays. rewrite !map_app.
  f_equal; [|f_equal].
  - destruct (ColorBars.showUtc props); [|reflexivity].
    cbn [map ColorBars.getTime ColorBars.isLocal ColorBars.getTimecodeOf].
    rewrite getTimecode_spec. reflexivity.
  - destruct (ColorBars.showLocal props); [|reflexivity].
    cbn [map ColorBars.getTime ColorBars.isLocal ColorBars.getTimecodeOf].
    rewrite getTimecode_spec. reflexivity.
  - destruct (ColorBars.remoteTimezone props) as [rz|]; [|reflexivity].
    cbn [map ColorBars.getTime ColorBars.isLocal].
    destruct (ColorBars.zoneTZA env (ColorBars.timezone rz)) as [tza|] eqn:Hzone.
    + destruct (remoteTime_timecode env rz tza now Hzone) as (d & Hd & Hcode).
      rewrite Hd. cbn [ColorBars.getTimecodeOf]. rewrite Hcode. reflexivity.
    + unfold ColorBars.remoteTime. rewrite Hzone. reflexivity.
Qed.

(** C9, as stated, fails in the ticks that do not encode.  With a clock
    that advances 16 ms per tick, the first tick encodes a payload for the
    instant 00:00:00.500; the fourth tick reads 00:00:00.548, of the same
    second, and keeps that payload: the frame it leaves shows the timecodes
    of its own instant, frame 16, beside a beacon that holds the instant of
    the first tick, frame 15. *)
Lemma beacon_of_an_earlier_instant :
  let st := fst (ColorBars.mounted Fixture.env Fixture.props 0 [1000; 1016; 1033; 1050]
                   Fixture.steady) in
  ColorBars.currentTime st = 1704067200548%Z
  /\ JsDate.toISOString (ColorBars.currentTime st) = "2024-01-01T00:00:00.548Z"%string
  /\ ColorBars.timecodes Fixture.env Fixture.props st
     = [Some "00:00:00:16"; Some "01:00:00:16"; Some "05:30:00:16"]%string
  /\ ColorBars.qrLabel (ColorBars.qr st)
     = "2024-01-01T00:00:00.500Z|1920x1080|f15"%string.
Proof. vm_compute. repeat split; reflexivity. Qed.

(** C9, amended: a tick reads the synchronised clock exactly once, and the
    state it leaves is a function of the prior state, the timestamp and that
    one instant: a run of the same tick in any world that answers the same
    instant leaves the identical state.  The stored current time, the
    spinner phase and angle, the QR token and every timecode of the info
    panel are those of that instant.  The QR payload, with its frame index,
    is that of the instant only in a tick whose instant has another integer
    second than the stored token, which encodes it; any other tick keeps the
    payload, data URL and size of the prior state, so the beacon of a frame
    may hold an earlier instant than its timecodes. *)
Theorem one_clock_read_per_tick
  (env : ColorBars.Env) (props : ColorBars.Props) (timestamp : Q)
  (st : ColorBars.State) (w : ColorBars.World) :
  let now := ColorBars.clock w (ColorBars.reads w) in
  let r := ColorBars.updateAnimation env props timestamp st w in
  let label :=
    (JsDate.toISOString now ++ "|" ++ ColorBars.numberToString env (ColorBars.width props)
       ++ "x" ++ ColorBars.numberToString env (ColorBars.height props)
       ++ "|f" ++ Spec.twoDigits (Spec.frameIndex (now mod 1000)))%string in
  (ColorBars.reads (snd r) = S (ColorBars.reads w)
   /\ ColorBars.clock (snd r) = ColorBars.clock w)
  /\ ColorBars.currentTime (fst r) = now
  /\ (forall w2 : ColorBars.World,
        ColorBars.clock w2 (ColorBars.reads w2) = now ->
        fst (ColorBars.updateAnimation env props timestamp st w2) = fst r)
  /\ (ColorBars.showSpinner props = true ->
      ColorBars.spinnerPhaseMs (ColorBars.spinner (fst r)) = (now mod 5000)%Z
      /\ ColorBars.spinnerAngle (ColorBars.spinner (fst r))
         = (inject_Z (now mod 5000) / 5000) * 360)
  /\ (ColorBars.showSyncQr props = true ->
      ColorBars.qrToken (ColorBars.qr (fst r)) = (now / 1000)%Z
      /\ ((now / 1000)%Z <> ColorBars.qrToken (ColorBars.qr st) ->
          ColorBars.qr (fst r)
          = {| ColorBars.qrSize := snd (ColorBars.encodeQr env label);
               ColorBars.qrToken := (now / 1000)%Z;
               ColorBars.qrLabel := label;
               ColorBars.qrDataUrl := fst (ColorBars.encodeQr env label) |}
          /\ ColorBars.encoded (snd r) = label :: ColorBars.encoded w)
      /\ ((now / 1000)%Z = ColorBars.qrToken (ColorBars.qr st) ->
          ColorBars.qr (fst r) = ColorBars.qr st
          /\ ColorBars.encoded (snd r) = ColorBars.encoded w))
  /\ (ColorBars.showSyncQr props = false ->
      ColorBars.qr (fst r) = ColorBars.qr st
      /\ ColorBars.encoded (snd r) = ColorBars.encoded w)
  /\ ColorBars.timecodes env props (fst r)
     = (if ColorBars.showUtc props then [Some (Spec.timecode now)] else [])
       ++ (if ColorBars.showLocal props
           then [Some (Spec.timecode (now + ColorBars.localTZA env now))] else [])
       ++ match ColorBars.remoteTimezone props with
          | Some rz =>
              [ match ColorBars.zoneTZA env (ColorBars.timezone rz) with
                | Some tza => Some (Spec.timecode (now + tza now))
                | None => None
                end ]
          | None => []
          end.
Proof.
  intros now r label.
  destruct (updateAnimation_world env props timestamp st w) as (Hc & Hr).
  destruct (updateAnimation_fields env props timestamp st w)
    as (Et & Ef & Eb & Es & Ex & Eq).
  fold r in Hc, Hr, Et, Ef, Eb, Es, Ex, Eq. fold now in Et, Es, Eq.
  assert (ColorBars.payload env props (JsDate.toISOString now)
            (ColorBars.frameField (ColorBars.frameOf now)) = label) as Hlabel.
  { unfold ColorBars.payload. rewrite frameField_spec. reflexivity. }
  pose proof (updateQr_cases env props (ColorBars.qr st) now
                {| ColorBars.clock := ColorBars.clock w;
                   ColorBars.reads := S (ColorBars.reads w);
                   ColorBars.encoded := ColorBars.encoded w |}) as Hqr.
  cbv zeta in Hqr. rewrite Hlabel, <- Eq, tokenOf_div in Hqr.
  split; [split; assumption|]. split; [exact Et|].
  split; [|split; [|split; [|split]]].
  - intros w2 Hnow.
    destruct (updateAnimation_fields env props timestamp st w2)
      as (Et2 & Ef2 & Eb2 & Es2 & Ex2 & Eq2).
    rewrite Hnow in Et2, Es2, Eq2.
    apply state_eq; try congruence.
    apply (f_equal fst) in Eq, Eq2. simpl in Eq, Eq2. rewrite Eq, Eq2.
    apply updateQr_state.
  - intros Hshow. rewrite Es. unfold ColorBars.updateSpinner. rewrite Hshow.
    cbn [ColorBars.spinnerPhaseMs ColorBars.spinnerAngle]. rewrite phaseOf_mod.
    split; reflexivity.
  - intros Hshow.
    destruct Hqr as [(_ & N & E) | ([F | T] & E)].
    + injection E as E1 E2. rewrite E1, E2. split; [reflexivity|].
      split; [intros _; split; reflexivity | intros T; contradiction].
    + rewrite Hshow in F. discriminate F.
    + injection E as E1 E2. rewrite E1, E2. cbn [ColorBars.encoded].
      split; [symmetry; exact T|].
      split; [intros N; contradiction | intros _; split; reflexivity].
  - intros Hhidden.
    destruct Hqr as [(S1 & _) | (_ & E)].
    + rewrite Hhidden in S1. discriminate S1.
    + injection E as E1 E2. rewrite E1, E2. split; reflexivity.
  - unfold ColorBars.timecodes. rewrite Et. apply timecodesAt_instant.
Qed.

Lemma one_clock_read_per_tick_witness :
  let r := ColorBars.updateAnimation Fixture.env Fixture.props 1000 (ColorBars.declared 0)
             Fixture.steady in
  ColorBars.reads (snd r) = 1%nat
  /\ ColorBars.spinnerPhaseMs (ColorBars.spinner (fst r)) = 500%Z
  /\ ColorBars.qrToken (ColorBars.qr (fst r)) = 1704067200%Z
  /\ ColorBars.qrLabel (ColorBars.qr (fst r))
     = "2024-01-01T00:00:00.500Z|1920x1080|f15"%string
  /\ fst (ColorBars.updateAnimation Fixture.env Fixture.props 1000 (ColorBars.declared 0)
            {| ColorBars.clock := fun _ => 1704067200500%Z; ColorBars.reads := 7;
               ColorBars.encoded := [] |}) = fst r
  /\ ColorBars.timecodes Fixture.env Fixture.props (fst r)
     = [Some "00:00:00:15"; Some "01:00:00:15"; Some "05:30:00:15"]%string.
Proof.
  intros r.
  destruct (one_clock_read_per_tick Fixture.env Fixture.props 1000 (ColorBars.declared 0)
              Fixture.steady) as ((Hr & _) & _ & Hsame & Hspin & Hqr & _ & Ht).
  fold r in Hr, Hsame, Hspin, Hqr, Ht.
  split; [exact Hr|].
  split; [exact (proj1 (Hspin eq_refl))|].
  split; [exact (proj1 (Hqr eq_refl))|].
  split.
  { destruct (proj1 (proj2 (Hqr eq_refl))) as [Hq _]; [discriminate|].
    rewrite Hq. reflexivity. }
  split; [apply Hsame; reflexivity|].
  rewrite Ht. reflexivity.
Defined.

(** * Further properties of the code *)

(** ** Overlay geometry *)

Ltac overlay_fields :=
  cbn [Overlay.box_x Overlay.box_y Overlay.box_width Overlay.box_height
       Overlay.x1 Overlay.x2 Overlay.y1 Overlay.y2 Overlay.cx Overlay.cy Overlay.r] in *.

(** X1: on a canvas with no negative dimension the title safe rectangle
    lies within the action safe rectangle and that one within the canvas;
    both are centered and cover 90% and 93% of each dimension; each of the
    eight corner marks lies within the action safe rectangle. *)
Theorem safe_areas_nested (width height : Q) :
  0 <= width -> 0 <= height ->
  let canvas := {| Overlay.box_x := 0; Overlay.box_y := 0; Overlay.box_width := width;
                   Overlay.box_height := height |} in
  let action := Overlay.actionSafeRect width height in
  let title := Overlay.titleSafeRect width height in
  Overlay.within title action /\ Overlay.within action canvas
  /\ (Overlay.box_width action == width * 0.93 /\ Overlay.box_height action == height * 0.93)
  /\ (Overlay.box_width title == width * 0.9 /\ Overlay.box_height title == height * 0.9)
  /\ (Overlay.box_x action == width - Overlay.rightEdge action
      /\ Overlay.box_y action == height - Overlay.bottom action)
  /\ (Overlay.box_x title == width - Overlay.rightEdge title
      /\ Overlay.box_y title == height - Overlay.bottom title)
  /\ List.length (Overlay.cornerMarkers width height) = 8%nat
  /\ Forall (fun l => Overlay.lineWithin l action) (Overlay.cornerMarkers width height).
Proof.
  intros HW HH canvas action title.
  unfold Overlay.within, Overlay.rightEdge, Overlay.bottom, action, title, canvas,
    Overlay.actionSafeRect, Overlay.titleSafeRect, Overlay.actionSafe, Overlay.titleSafe.
  overlay_fields.
  repeat match goal with |- _ /\ _ => split end; try lra; try reflexivity.
  unfold Overlay.cornerMarkers, Overlay.corners, Overlay.cornerMarks, Overlay.lineWithin,
    Overlay.rightEdge, Overlay.bottom, Overlay.actionSafe.
  cbn [flat_map app].
  change (Qeq_bool 0 0) with true. change (Qeq_bool 1 0) with false. cbv iota.
  repeat constructor; overlay_fields; lra.
Qed.

Lemma safe_areas_nested_witness :
  Overlay.within (Overlay.titleSafeRect 1920 1080) (Overlay.actionSafeRect 1920 1080).
Proof.
  exact (proj1 (safe_areas_nested 1920 1080 ltac:(unfold Qle; simpl; lia) ltac:(unfold Qle; simpl; lia))).
Defined.

(** X2: on a canvas with no negative dimension the center circles of the
    frame and of the grid lie within the canvas, and the frame border is
    inset by 1 unit on each of the four sides. *)
Theorem center_circles_fit (width height : Q) :
  0 <= width -> 0 <= height ->
  let inside (c : Overlay.Circle) :=
    0 <= Overlay.r c
    /\ 0 <= Overlay.cx c - Overlay.r c /\ Overlay.cx c + Overlay.r c <= width
    /\ 0 <= Overlay.cy c - Overlay.r c /\ Overlay.cy c + Overlay.r c <= height in
  inside (Overlay.frameCircle width height)
  /\ inside (Overlay.gridCircle width height)
  /\ Overlay.box_x (Overlay.frameBorder width height) == 1
  /\ Overlay.box_y (Overlay.frameBorder width height) == 1
  /\ Overlay.rightEdge (Overlay.frameBorder width height) == width - 1
  /\ Overlay.bottom (Overlay.frameBorder width height) == height - 1.
Proof.
  intros HW HH inside. unfold inside, Overlay.frameCircle, Overlay.gridCircle,
    Overlay.frameBorder, Overlay.rightEdge, Overlay.bottom.
  overlay_fields.
  pose proof (Q.le_min_l width height). pose proof (Q.le_min_r width height).
  assert (0 <= Qmin width height) by (apply Q.min_glb; assumption).
  inv_consts. repeat match goal with |- _ /\ _ => split end; lra.
Qed.

Lemma center_circles_fit_witness :
  Overlay.cx (Overlay.frameCircle 1920 1080) + Overlay.r (Overlay.frameCircle 1920 1080)
  <= 1920.
Proof.
  destruct (center_circles_fit 1920 1080 ltac:(unfold Qle; simpl; lia) ltac:(unfold Qle; simpl; lia))
    as ((_ & _ & H & _) & _).
  exact H.
Defined.

Lemma getTimeDisplays_length (env : ColorBars.Env) (props : ColorBars.Props) :
  (List.length (ColorBars.getTimeDisplays env props) <= 3)%nat.
Proof.
  unfold ColorBars.getTimeDisplays.
  destruct (ColorBars.showUtc props), (ColorBars.showLocal props),
    (ColorBars.remoteTimezone props); simpl; lia.
Qed.

Section InfoStack.
Variable env : ColorBars.Env.
Variable props : ColorBars.Props.
Variables nativeWidth nativeHeight : Q.
Variable customText : string.
Variable customImage : option string.
Variable hAlign : Overlay.HAlign.
Variable vAlign : Overlay.VAlign.

Let width := ColorBars.width props.
Let height := ColorBars.height props.
Let displays := List.length (ColorBars.getTimeDisplays env props).

(** X3: on a canvas whose height is not negative, the boxes of the info
    overlay (custom text, custom image, info box, those that are drawn)
    follow one another downwards from stackStartY, one gap apart, and end at
    stackStartY + totalStackHeight; the whole stack lies between the top and
    the bottom of the canvas; aligned to the top it starts one margin below
    the top, aligned to the bottom it ends one margin above the bottom, and
    centered it leaves the same space above and below. *)
Theorem info_stack_vertical :
  0 <= height ->
  let start := Overlay.stackStartY width height nativeWidth nativeHeight displays
                 customText customImage vAlign in
  let total := Overlay.totalStackHeight width height nativeWidth nativeHeight displays
                 customText customImage in
  let info := Overlay.infoBox width height nativeWidth nativeHeight displays
                customText customImage hAlign vAlign in
  Overlay.stackedFrom height start
    (Overlay.stackBoxes width height nativeWidth nativeHeight displays
       customText customImage hAlign vAlign)
  /\ Overlay.bottom info == start + total
  /\ (0 <= start /\ Overlay.bottom info <= height)
  /\ match vAlign with
     | Overlay.VTop => start == Overlay.margin height
     | Overlay.VBottom => Overlay.bottom info == height - Overlay.margin height
     | Overlay.VCenter => start == height - Overlay.bottom info
     end.
Proof.
  intros HH start total info.
  pose proof (getTimeDisplays_length env props) as Hn. fold displays in Hn.
  unfold start, total, info, Overlay.stackBoxes, Overlay.textBox, Overlay.imgBox,
    Overlay.infoBox, Overlay.bottom, Overlay.boxY, Overlay.imgBoxY, Overlay.textBoxY,
    Overlay.stackStartY, Overlay.totalStackHeight, Overlay.infoBoxHeight,
    Overlay.textBoxHeight, Overlay.imgBoxHeight, Overlay.totalRows, Overlay.extraRows,
    Overlay.rowHeight, Overlay.gap, Overlay.margin.
  destruct (Overlay.isScaled width height nativeWidth nativeHeight),
    (Overlay.truthy customText), (Overlay.present customImage), vAlign;
    (destruct displays as [|[|[|[|n]]]]; [| | | | exfalso; lia]);
    cbn [Overlay.stackedFrom app]; overlay_fields; unfold Overlay.bottom, Overlay.gap;
    overlay_fields; unfold ofIndex; cbn [Z.of_nat Pos.of_succ_nat Pos.succ];
    repeat match goal with
           | |- context [ inject_Z ?z ] => change (inject_Z z) with (z # 1)
           end;
    inv_consts; repeat match goal with |- _ /\ _ => split end; try exact I; lra.
Qed.

(** X4: whatever the alignment, the custom text and the custom image are
    centered on the info box; aligned to the left the info box starts one
    margin from the left edge, aligned to the right it ends one margin from
    the right edge, and centered it leaves the same space on both sides. *)
Theorem info_stack_horizontal :
  let info := Overlay.infoBox width height nativeWidth nativeHeight displays
                customText customImage hAlign vAlign in
  let middle := Overlay.box_x info + Overlay.box_width info / 2 in
  Overlay.textCenterX width height hAlign == middle
  /\ Overlay.imgBoxX width height hAlign + Overlay.imgBoxWidth width / 2 == middle
  /\ match hAlign with
     | Overlay.HLeft => Overlay.box_x info == Overlay.margin height
     | Overlay.HRight => Overlay.rightEdge info == width - Overlay.margin height
     | Overlay.HCenter => Overlay.box_x info == width - Overlay.rightEdge info
     end.
Proof.
  intros info middle.
  unfold middle, info, Overlay.infoBox, Overlay.rightEdge, Overlay.textCenterX,
    Overlay.imgBoxX, Overlay.imgBoxWidth, Overlay.boxX, Overlay.boxWidth, Overlay.margin.
  overlay_fields. destruct hAlign; inv_consts; repeat split; lra.
Qed.

End InfoStack.

Lemma info_stack_vertical_witness :
  Overlay.bottom
    (Overlay.infoBox 1920 1080 3840 2160 3 "STUDIO A"
       (Some "data:image/png;base64,AAAA"%string)
       Overlay.HCenter Overlay.VBottom)
  == 1080 - Overlay.margin 1080.
Proof.
  destruct (info_stack_vertical Fixture.env Fixture.props 3840 2160 "STUDIO A"
              (Some "data:image/png;base64,AAAA"%string) Overlay.HCenter Overlay.VBottom
              ltac:(unfold Qle; simpl; lia)) as (_ & _ & _ & H).
  exact H.
Defined.

Lemma ofIndex_add (a b : nat) : ofIndex (a + b) == ofIndex a + ofIndex b.
Proof. unfold ofIndex. rewrite Nat2Z.inj_add, inject_Z_plus. reflexivity. Qed.

Lemma ofIndex_le (a b : nat) : (a <= b)%nat -> ofIndex a <= ofIndex b.
Proof. intros Hab. unfold ofIndex. rewrite <- Zle_Qle. lia. Qed.

Lemma ofIndex_S (a : nat) : ofIndex (S a) == ofIndex a + 1.
Proof. rewrite <- Nat.add_1_r, ofIndex_add. reflexivity. Qed.

(** Rows given by their index from [a], shifted by [c] rows. *)
Lemma rows_progression (base rh : Q) (c : nat) (n : nat) :
  forall a : nat,
    Forall2 (fun y k => y == base + rh * (ofIndex k + 0.5))
            (map (fun i => base + rh * (ofIndex i + ofIndex c + 0.5)) (seq a n))
            (seq (a + c) n).
Proof.
  induction n as [|n IH]; intros a; simpl; constructor.
  - rewrite ofIndex_add. reflexivity.
  - apply (IH (S a)).
Qed.

(** Elements related to the indices [a .. a + n - 1] are related to an index
    in that range. *)
Lemma Forall2_seq_index {A : Type} (P : A -> nat -> Prop) (l : list A) :
  forall a n, Forall2 P l (seq a n) ->
              Forall (fun y => exists k, (a <= k < a + n)%nat /\ P y k) l.
Proof.
  induction l as [|y l IH]; intros a n F; [constructor|].
  destruct n as [|n]; simpl in F; inversion F as [|? ? ? ? Hy Hl]; subst.
  constructor.
  - exists a. split; [lia | exact Hy].
  - apply (IH (S a) n) in Hl. eapply Forall_impl; [|exact Hl].
    intros z (k & Hk & Pz). exists k. split; [lia | exact Pz].
Qed.

Section InfoRows.
Variables width height nativeWidth nativeHeight : Q.
Variable displays : nat.
Variable customText : string.
Variable customImage : option string.
Variable hAlign : Overlay.HAlign.
Variable vAlign : Overlay.VAlign.

Let rows := Overlay.rowYs width height nativeWidth nativeHeight displays
              customText customImage vAlign.
Let info := Overlay.infoBox width height nativeWidth nativeHeight displays
              customText customImage hAlign vAlign.
Let first := Overlay.box_y info + height * 0.012.
Let rowHeight := Overlay.rowHeight height.

Lemma rows_length :
  List.length rows
  = (displays + 2 + (if Overlay.isScaled width height nativeWidth nativeHeight then 1 else 0))%nat.
Proof.
  unfold rows, Overlay.rowYs.
  destruct (Overlay.isScaled width height nativeWidth nativeHeight);
    rewrite !length_app, length_map, length_seq; simpl; lia.
Qed.

Lemma rows_even :
  Forall2 (fun y k => y == first + rowHeight * (ofIndex k + 0.5)) rows
          (seq 0 (List.length rows)).
Proof.
  rewrite rows_length. unfold rows, Overlay.rowYs, Overlay.rowY, Overlay.timeStartRow,
    Overlay.outRowY, Overlay.nativeRowY, Overlay.fpsRowY, first, info, Overlay.infoBox,
    rowHeight.
  overlay_fields.
  destruct (Overlay.isScaled width height nativeWidth nativeHeight).
  - replace (displays + 2 + 1)%nat with (3 + displays)%nat by lia.
    cbn [app seq plus]. repeat constructor; unfold ofIndex;
      cbn [Z.of_nat Pos.of_succ_nat Pos.succ]; try (inv_consts; lra).
    apply (rows_progression _ _ 3 displays 0).
  - replace (displays + 2 + 0)%nat with (2 + displays)%nat by lia.
    cbn [app seq plus]. repeat constructor; unfold ofIndex;
      cbn [Z.of_nat Pos.of_succ_nat Pos.succ]; try (inv_consts; lra).
    apply (rows_progression _ _ 2 displays 0).
Qed.

(** X5: the text rows of the info box (resolution, native resolution when
    the display is scaled, FPS, one per time display) are
    displays + 2 (+ 1 when scaled) in number and evenly spaced: row k is
    centered rowHeight * (k + 0.5) below the top padding of the box; on a
    canvas whose height is not negative each row, of height rowHeight, lies
    between the top and the bottom of the info box. *)
Theorem info_rows_inside_box :
  0 <= height ->
  List.length rows
  = (displays + 2 + (if Overlay.isScaled width height nativeWidth nativeHeight then 1 else 0))%nat
  /\ Forall2 (fun y k => y == first + rowHeight * (ofIndex k + 0.5)) rows
             (seq 0 (List.length rows))
  /\ Forall (fun y => Overlay.box_y info <= y - rowHeight * 0.5
                      /\ y + rowHeight * 0.5 <= Overlay.bottom info) rows.
Proof.
  intros HH. split; [apply rows_length|]. split; [apply rows_even|].
  pose proof (Forall2_seq_index _ _ _ _ rows_even) as F.
  eapply Forall_impl; [|exact F].
  intros y (k & Hk & Hy). cbv beta in Hy.
  assert (0 <= rowHeight) as Hrh by (unfold rowHeight, Overlay.rowHeight; lra).
  assert (0 <= rowHeight * ofIndex k) as H1
    by (apply Qmult_le_0_compat; [exact Hrh | apply (ofIndex_le 0); lia]).
  assert (0 <= rowHeight * (ofIndex (List.length rows) - ofIndex (S k))) as H2.
  { apply Qmult_le_0_compat; [exact Hrh|].
    pose proof (ofIndex_le (S k) (List.length rows) ltac:(lia)). lra. }
  rewrite ofIndex_S in H2.
  assert (Overlay.bottom info
          == first + rowHeight * ofIndex (List.length rows) + height * 0.013) as Hb.
  { rewrite rows_length. unfold first, info, Overlay.infoBox, Overlay.bottom,
      Overlay.infoBoxHeight, Overlay.totalRows, Overlay.extraRows. overlay_fields.
    fold rowHeight.
    destruct (Overlay.isScaled width height nativeWidth nativeHeight);
      rewrite !ofIndex_add; unfold ofIndex; cbn [Z.of_nat Pos.of_succ_nat Pos.succ];
      change (inject_Z 2) with 2; change (inject_Z 1) with 1; change (inject_Z 0) with 0;
      ring. }
  rewrite Hb, Hy. unfold first. split; lra.
Qed.

End InfoRows.

Lemma info_rows_inside_box_witness :
  List.length (Overlay.rowYs 1920 1080 3840 2160 3 "" None Overlay.VCenter) = 6%nat.
Proof.
  exact (proj1 (info_rows_inside_box 1920 1080 3840 2160 3 "" None Overlay.HCenter
                  Overlay.VCenter ltac:(unfold Qle; simpl; lia))).
Defined.

(** X6: the sync QR panel is centered vertically on the canvas; its cell is
    never smaller than 2 units; for a code of no negative size on a canvas of
    no negative height, the code image lies within the panel, one padding
    from its left, top and right sides. *)
Theorem qr_panel_geometry (width height : Q) (qrSize : Z) :
  (0 <= qrSize)%Z -> 0 <= height ->
  let panel := Overlay.qrPanel width height qrSize in
  let image := Overlay.qrImage width height qrSize in
  let padding := Overlay.qrPanelPadding width height in
  2 <= Overlay.qrCell width height
  /\ Overlay.box_y panel == height - Overlay.bottom panel
  /\ Overlay.within image panel
  /\ Overlay.box_x image == Overlay.box_x panel + padding
  /\ Overlay.box_y image == Overlay.box_y panel + padding
  /\ Overlay.rightEdge image == Overlay.rightEdge panel - padding.
Proof.
  intros Hsize HH panel image padding.
  assert (2 <= Overlay.qrCell width height) as Hcell by apply Q.le_max_l.
  assert (0 <= Overlay.qrRenderSize width height qrSize) as Hrs.
  { apply Qmult_le_0_compat; [|lra].
    change 0 with (inject_Z 0). rewrite <- Zle_Qle. exact Hsize. }
  unfold panel, image, padding, Overlay.within, Overlay.qrPanel, Overlay.qrImage,
    Overlay.rightEdge, Overlay.bottom, Overlay.qrY, Overlay.qrPanelHeight,
    Overlay.qrPanelWidth, Overlay.qrLabelHeight, Overlay.qrPanelPadding, Overlay.qrX.
  overlay_fields.
  set (rs := Overlay.qrRenderSize width height qrSize) in *.
  set (cell := Overlay.qrCell width height) in *.
  inv_consts. repeat match goal with |- _ /\ _ => split end; lra.
Qed.

Lemma qr_panel_geometry_witness :
  Overlay.within (Overlay.qrImage 1920 1080 29) (Overlay.qrPanel 1920 1080 29).
Proof.
  destruct (qr_panel_geometry 1920 1080 29 ltac:(lia) ltac:(unfold Qle; simpl; lia))
    as (_ & _ & H & _).
  exact H.
Defined.

(** ** The FPS estimate *)

Lemma run_frames (env : ColorBars.Env) (props : ColorBars.Props) (timestamps : list Q) :
  forall (st : ColorBars.State) (w : ColorBars.World),
    ColorBars.frames (fst (ColorBars.run env props timestamps st w))
    = Frames.counted (ColorBars.frames st) timestamps.
Proof.
  induction timestamps as [|timestamp rest IH]; intros st w; [reflexivity|].
  rewrite run_cons, IH.
  destruct (updateAnimation_fields env props timestamp st w) as (_ & E & _).
  rewrite E. reflexivity.
Qed.


Lemma round_comp (x y : Q) : x == y -> round x = round y.
Proof. intros E. unfold round. rewrite E. reflexivity. Qed.

Lemma updateFps_closes (f : ColorBars.Fps) (timestamp : Q) :
  500 <= timestamp - ColorBars.fpsUpdateTime f ->
  ColorBars.updateFps f timestamp =
    {| ColorBars.fps :=
         round ((inject_Z (ColorBars.frameCount f + 1) * 1000)
                / (timestamp - ColorBars.fpsUpdateTime f));
       ColorBars.lastFrameTime := timestamp; ColorBars.frameCount := 0;
       ColorBars.fpsUpdateTime := timestamp |}.
Proof.
  intros H. unfold ColorBars.updateFps, ColorBars.geb.
  apply Qle_bool_iff in H. rewrite H. reflexivity.
Qed.

Lemma updateFps_open (f : ColorBars.Fps) (timestamp : Q) :
  timestamp - ColorBars.fpsUpdateTime f < 500 ->
  ColorBars.updateFps f timestamp =
    {| ColorBars.fps := ColorBars.fps f; ColorBars.lastFrameTime := timestamp;
       ColorBars.frameCount := (ColorBars.frameCount f + 1)%Z;
       ColorBars.fpsUpdateTime := ColorBars.fpsUpdateTime f |}.
Proof.
  intros H. unfold ColorBars.updateFps, ColorBars.geb.
  destruct (Qle_bool 500 _) eqn:G; [|reflexivity].
  apply Qle_bool_iff in G. lra.
Qed.


(** Frames inside the open window only count. *)
Lemma counted_open (u : Q) (timestamps : list Q) :
  forall f : ColorBars.Fps,
    ColorBars.fpsUpdateTime f = u ->
    Forall (fun timestamp => timestamp - u < 500) timestamps ->
    ColorBars.fps (Frames.counted f timestamps) = ColorBars.fps f
    /\ ColorBars.frameCount (Frames.counted f timestamps)
       = (ColorBars.frameCount f + Z.of_nat (List.length timestamps))%Z
    /\ ColorBars.fpsUpdateTime (Frames.counted f timestamps) = u.
Proof.
  induction timestamps as [|timestamp rest IH]; intros f Hu F.
  - simpl. repeat split; [lia | exact Hu].
  - apply Forall_cons_iff in F. destruct F as [Hopen Hrest]. cbv beta in Hopen.
    rewrite <- Hu in Hopen.
    unfold Frames.counted; cbn [fold_left]. fold (Frames.counted (ColorBars.updateFps f timestamp) rest).
    rewrite (updateFps_open f timestamp Hopen).
    match goal with
    | |- context [Frames.counted ?g rest] => destruct (IH g Hu Hrest) as (H1 & H2 & H3)
    end.
    rewrite H1, H2, H3; cbn [ColorBars.fps ColorBars.frameCount ColorBars.fpsUpdateTime].
    repeat split. rewrite length_cons. lia.
Qed.

Lemma steady_snoc (u d : Q) (n : nat) :
  Frames.steady u d (S n) = Frames.steady u d n ++ [u + ofIndex (S n) * d].
Proof. unfold Frames.steady. rewrite seq_S, map_app. reflexivity. Qed.

Lemma counted_app (f : ColorBars.Fps) (a b : list Q) :
  Frames.counted f (a ++ b) = Frames.counted (Frames.counted f a) b.
Proof. apply fold_left_app. Qed.

(** X8: at a steady frame rate the estimate is the rate: from a window that
    has just been opened at [u], the frames at u + d, u + 2d, ..., u + n*d,
    of which the n-th is the first one 500 ms or more after u, leave
    fps = round(1000 / d), an empty count and a window opened at the last of
    them. *)
Theorem fps_at_steady_rate
  (env : ColorBars.Env) (props : ColorBars.Props) (st : ColorBars.State)
  (w : ColorBars.World) (u d : Q) (n : nat) :
  ColorBars.frameCount (ColorBars.frames st) = 0%Z ->
  ColorBars.fpsUpdateTime (ColorBars.frames st) = u ->
  0 < d ->
  ofIndex n * d < 500 ->
  500 <= ofIndex (S n) * d ->
  let f := ColorBars.frames
             (fst (ColorBars.run env props (Frames.steady u d (S n)) st w)) in
  ColorBars.fps f = round (1000 / d)
  /\ ColorBars.frameCount f = 0%Z
  /\ ColorBars.fpsUpdateTime f = u + ofIndex (S n) * d.
Proof.
  intros Hcount Hu Hd Hbefore Hat f. unfold f.
  rewrite run_frames, steady_snoc, counted_app.
  destruct (counted_open u (Frames.steady u d n) (ColorBars.frames st) Hu)
    as (_ & Hc & Hupd).
  { unfold Frames.steady. apply Forall_forall. intros timestamp Hin.
    apply in_map_iff in Hin. destruct Hin as (k & <- & Hk). apply in_seq in Hk.
    pose proof (ofIndex_le (S k) n ltac:(lia)) as Hle.
    assert (ofIndex (S k) * d <= ofIndex n * d) by (apply Qmult_le_compat_r; lra).
    lra. }
  set (g := Frames.counted (ColorBars.frames st) (Frames.steady u d n)) in *.
  change (Frames.counted g [u + ofIndex (S n) * d])
    with (ColorBars.updateFps g (u + ofIndex (S n) * d)).
  rewrite updateFps_closes by (rewrite Hupd; lra).
  cbn [ColorBars.fps ColorBars.frameCount ColorBars.fpsUpdateTime].
  split; [|split; reflexivity].
  apply round_comp. rewrite Hc, Hupd, Hcount.
  unfold Frames.steady. rewrite length_map, length_seq.
  change (0 + Z.of_nat n + 1)%Z with (Z.of_nat n + 1)%Z.
  replace (Z.of_nat n + 1)%Z with (Z.of_nat (S n)) by lia.
  fold (ofIndex (S n)).
  assert (0 < ofIndex (S n)).
  { unfold ofIndex. change 0 with (inject_Z 0). rewrite <- Zlt_Qlt. lia. }
  field. split; lra.
Qed.

Lemma fps_at_steady_rate_witness :
  ColorBars.fps
    (ColorBars.frames
       (fst (ColorBars.run Fixture.env Fixture.props (Frames.steady 0 (1000 / 60) 30)
               (ColorBars.declared 0) Fixture.steady)))
  = 60%Z.
Proof.
  exact (proj1 (fps_at_steady_rate Fixture.env Fixture.props (ColorBars.declared 0)
                  Fixture.steady 0 (1000 / 60) 29 eq_refl eq_refl eq_refl eq_refl
                  ltac:(unfold Qle; simpl; lia))).
Defined.

(** ** The shimmer and the ball as drawn *)

Section Shimmer.
Import ColorBars.
Variable env : Env.
Variable props : Props.
Hypothesis positive_width : 0 < width props.
Hypothesis height_not_negative : 0 <= height props.

Let inRange (sx : Q) : Prop :=
  - shimmerWidth props - height props <= sx /\ sx <= width props.

Lemma updateShimmer_inRange (sx delta : Q) :
  0 <= delta -> inRange sx -> inRange (updateShimmer props sx delta).
Proof.
  intros Hdelta [Hlo Hhi]. unfold inRange, updateShimmer, gtb, shimmerSpeed, shimmerWidth in *.
  assert (0 <= width props * delta) as Hp by (apply Qmult_le_0_compat; lra).
  destruct (showShimmer props); [|split; assumption].
  destruct (Qle_bool _ (width props)) eqn:G; cbn [negb].
  - apply Qle_bool_iff in G. inv_consts. split; lra.
  - inv_consts. split; lra.
Qed.

Lemma deltaMs_not_negative (f : Fps) (timestamp : Q) :
  (0 < lastFrameTime f -> lastFrameTime f <= timestamp) -> 0 <= deltaMs f timestamp.
Proof.
  intros H. unfold deltaMs, gtb. destruct (Qle_bool _ 0) eqn:G; cbn [negb].
  - unfold Qle; simpl; lia.
  - assert (~ lastFrameTime f <= 0) by (rewrite <- Qle_bool_iff, G; discriminate).
    assert (lastFrameTime f <= timestamp) by (apply H; lra). lra.
Qed.

Lemma lastFrameTime_updateFps (f : Fps) (timestamp : Q) :
  lastFrameTime (updateFps f timestamp) = timestamp.
Proof. unfold updateFps. destruct (geb _ _); reflexivity. Qed.

Lemma run_inRange (timestamps : list Q) :
  forall (st : State) (w : World),
    inRange (shimmerX st) ->
    Sorted Qle timestamps ->
    (forall timestamp, hd_error timestamps = Some timestamp ->
                       0 < lastFrameTime (frames st) ->
                       lastFrameTime (frames st) <= timestamp) ->
    inRange (shimmerX (fst (run env props timestamps st w))).
Proof.
  induction timestamps as [|timestamp rest IH]; intros st w Hin Hsorted Hhead.
  - exact Hin.
  - rewrite run_cons.
    destruct (updateAnimation_fields env props timestamp st w) as (_ & Ef & _ & _ & Ex & _).
    apply Sorted_inv in Hsorted. destruct Hsorted as [Hrest Hrel].
    apply IH.
    + rewrite Ex. apply updateShimmer_inRange; [|exact Hin].
      apply deltaMs_not_negative. apply Hhead. reflexivity.
    + exact Hrest.
    + intros next Hnext _. rewrite Ef, lastFrameTime_updateFps.
      destruct rest as [|b rest']; [discriminate|].
      injection Hnext as <-. apply HdRel_inv in Hrel. exact Hrel.
Qed.

End Shimmer.

(** X9: on a canvas of positive width and no negative height, after
    mounting and any frames whose timestamps do not decrease, the shimmer
    offset lies between -(shimmerWidth + height), where a sweep starts, and
    the width of the canvas, past which it starts again. *)
Theorem shimmer_stays_in_range
  (env : ColorBars.Env) (props : ColorBars.Props) (t0 : Z) (timestamps : list Q)
  (w : ColorBars.World) :
  0 < ColorBars.width props -> 0 <= ColorBars.height props ->
  Sorted Qle timestamps ->
  let sx := ColorBars.shimmerX (fst (ColorBars.mounted env props t0 timestamps w)) in
  - ColorBars.shimmerWidth props - ColorBars.height props <= sx
  /\ sx <= ColorBars.width props.
Proof.
  intros HW HH Hsorted sx. unfold sx. rewrite mounted_eq.
  apply (run_inRange env props HW HH); [|exact Hsorted|].
  - cbn [ColorBars.onMount ColorBars.bind ColorBars.generateSyncDataUrl ColorBars.ret fst
         ColorBars.shimmerX ColorBars.declared].
    unfold ColorBars.shimmerWidth. split; lra.
  - intros timestamp _ Hlast. exfalso.
    cbn [ColorBars.onMount ColorBars.bind ColorBars.generateSyncDataUrl ColorBars.ret fst
         ColorBars.frames ColorBars.lastFrameTime ColorBars.declared] in Hlast.
    apply (Qlt_irrefl 0 Hlast).
Qed.

Lemma shimmer_stays_in_range_witness :
  ColorBars.shimmerX
    (fst (ColorBars.mounted Fixture.env Fixture.props 0 [1000; 11000; 11016] Fixture.steady))
  <= ColorBars.width Fixture.props.
Proof.
  refine (proj2 (shimmer_stays_in_range Fixture.env Fixture.props 0 [1000; 11000; 11016]
                   Fixture.steady eq_refl ltac:(unfold Qle; simpl; lia) _)).
  repeat constructor; unfold Qle; simpl; lia.
Defined.

(** X10: on a canvas of positive width and no negative height, after
    mounting and any frames, the ball as it is drawn lies within the canvas
    from left to right and within the row of the main bars, the top 67%,
    from top to bottom. *)
Theorem ball_drawn_inside_main_bars
  (env : ColorBars.Env) (props : ColorBars.Props) (t0 : Z) (timestamps : list Q)
  (w : ColorBars.World) :
  0 < ColorBars.width props -> 0 <= ColorBars.height props ->
  let c := Overlay.ballCircle props (fst (ColorBars.mounted env props t0 timestamps w)) in
  0 <= Overlay.r c
  /\ (0 <= Overlay.cx c - Overlay.r c /\ Overlay.cx c + Overlay.r c <= ColorBars.width props)
  /\ (0 <= Overlay.cy c - Overlay.r c
      /\ Overlay.cy c + Overlay.r c <= ColorBars.height props * 0.67).
Proof.
  intros HW HH c.
  destruct (mounted_inBounds env props HW t0 timestamps w) as (Hlo & Hhi & _).
  unfold c, Overlay.ballCircle; overlay_fields.
  unfold ColorBars.ballY. unfold ColorBars.ballRadius in *.
  pose proof (Q.le_min_r (ColorBars.width props) (ColorBars.height props)).
  assert (0 <= Qmin (ColorBars.width props) (ColorBars.height props))
    by (apply Q.min_glb; lra).
  inv_consts. repeat split; lra.
Qed.

Lemma ball_drawn_inside_main_bars_witness :
  let c := Overlay.ballCircle Fixture.props
             (fst (ColorBars.mounted Fixture.env Fixture.props 0 [1000; 11000] Fixture.steady)) in
  Overlay.cx c + Overlay.r c <= ColorBars.width Fixture.props.
Proof.
  exact (proj2 (proj1 (proj2 (ball_drawn_inside_main_bars Fixture.env Fixture.props 0
                                [1000; 11000] Fixture.steady eq_refl
                                ltac:(unfold Qle; simpl; lia))))).
Defined.

(** ** The spinner flash and the first frame of the beacon *)

(** X11: the flash marks the start of a cycle.  With the spinner shown, in
    a tick whose frame delta is the time by which the synchronised clock has
    advanced since the instant [prev], the flash is drawn exactly when a
    multiple of 5000 ms lies after [prev] and not after the instant of the
    tick. *)
Theorem flash_marks_cycle_start
  (env : ColorBars.Env) (props : ColorBars.Props) (timestamp : Q)
  (st : ColorBars.State) (w : ColorBars.World) (prev : Z) :
  ColorBars.showSpinner props = true ->
  let now := ColorBars.clock w (ColorBars.reads w) in
  ColorBars.deltaMs (ColorBars.frames st) timestamp == inject_Z (now - prev) ->
  let st' := fst (ColorBars.updateAnimation env props timestamp st w) in
  Overlay.flashShown props (ColorBars.spinner st') = true
  <-> (prev / 5000 < now / 5000)%Z.
Proof.
  intros Hshow now Hdelta st'.
  destruct (updateAnimation_fields env props timestamp st w) as (_ & _ & _ & E & _).
  fold st' now in E.
  unfold Overlay.flashShown. rewrite E, Hshow. unfold ColorBars.updateSpinner.
  rewrite Hshow. cbn [ColorBars.spinnerFlashFrameMs ColorBars.spinnerPhaseMs andb].
  rewrite phaseOf_mod. unfold ColorBars.gtb.
  rewrite negb_true_iff, <- not_true_iff_false, Qle_bool_iff, Hdelta, <- Zle_Qle.
  split; intros H; Z.div_mod_to_equations; lia.
Qed.

Lemma flash_marks_cycle_start_witness :
  let st := fst (ColorBars.updateAnimation Fixture.env Fixture.props 1000
                   (ColorBars.declared 0)
                   {| ColorBars.clock := fun k => (1704067204990 + 16 * Z.of_nat k)%Z;
                      ColorBars.reads := 0; ColorBars.encoded := [] |}) in
  let w := {| ColorBars.clock := fun k => (1704067204990 + 16 * Z.of_nat k)%Z;
              ColorBars.reads := 1; ColorBars.encoded := [] |} in
  Overlay.flashShown Fixture.props
    (ColorBars.spinner (fst (ColorBars.updateAnimation Fixture.env Fixture.props 1016 st w)))
  = true.
Proof.
  intros st w.
  apply (flash_marks_cycle_start Fixture.env Fixture.props 1016 st w 1704067204990
           eq_refl eq_refl).
  reflexivity.
Defined.

(** X12: the token starts at 0 although [onMount] encodes a payload for the
    initial time, so with the sync QR shown the first tick encodes again,
    also when it reads an instant of the very second of the initial time:
    after mounting and one tick that reads an instant outside the first
    second of the epoch, the encoder has been called twice. *)
Theorem first_tick_encodes_again
  (env : ColorBars.Env) (props : ColorBars.Props) (t0 : Z) (timestamp : Q)
  (w : ColorBars.World) :
  ColorBars.showSyncQr props = true ->
  let now := ColorBars.clock w (ColorBars.reads w) in
  (now < 0 \/ 1000 <= now)%Z ->
  let w' := snd (ColorBars.mounted env props t0 [timestamp] w) in
  ColorBars.encoded w'
  = ColorBars.payload env props (JsDate.toISOString now)
      (ColorBars.frameField (ColorBars.frameOf now))
    :: ColorBars.payload env props (JsDate.toISOString t0) "00"
    :: ColorBars.encoded w.
Proof.
  intros Hshow now Hnow w'. unfold w'. rewrite mounted_eq, run_cons.
  set (m := ColorBars.onMount env props t0 w).
  destruct (tick_qr env props Hshow timestamp (fst m) (snd m)) as [(_ & E & _) | (T & _)].
  - cbn [ColorBars.run ColorBars.ret snd]. rewrite E. reflexivity.
  - exfalso.
    change (ColorBars.qrToken (ColorBars.qr (fst m))) with 0%Z in T.
    change (ColorBars.clock (snd m) (ColorBars.reads (snd m))) with now in T.
    rewrite tokenOf_div in T. Z.div_mod_to_equations. lia.
Qed.

Lemma first_tick_encodes_again_witness :
  List.length
    (ColorBars.encoded
       (snd (ColorBars.mounted Fixture.env Fixture.props 1704067200400 [1000] Fixture.steady)))
  = 2%nat.
Proof.
  rewrite (first_tick_encodes_again Fixture.env Fixture.props 1704067200400 1000
             Fixture.steady eq_refl ltac:(right; simpl; lia)).
  reflexivity.
Defined.

(** ** The time of a remote zone *)

(** X13: for a zone that the host knows, the UTC timecode of the date that
    the remote display hands to getTimecode is the timecode of the wall clock
    of the zone, the current time moved by the offset of the zone; it is what
    the LOCAL display shows on a host in that zone.  When the current time
    is an Invalid Date the closure throws. *)
Theorem remote_time_is_zone_wall_clock
  (env : ColorBars.Env) (rz : ColorBars.RemoteTimezone) (tza : Z -> Z) (t : Z) :
  ColorBars.zoneTZA env (ColorBars.timezone rz) = Some tza ->
  (exists d : Z,
     ColorBars.remoteTime env rz (Some t) = Some (Some d)
     /\ ColorBars.getTimecode env d false = Spec.timecode (t + tza t)
     /\ ColorBars.getTimecode env d false
        = ColorBars.getTimecode
            {| ColorBars.localTZA := tza; ColorBars.zoneTZA := ColorBars.zoneTZA env;
               ColorBars.numberToString := ColorBars.numberToString env;
               ColorBars.encodeQr := ColorBars.encodeQr env |} t true)
  /\ ColorBars.remoteTime env rz None = None.
Proof.
  intros Hzone. split.
  - destruct (remoteTime_timecode env rz tza t Hzone) as (d & Hd & E).
    exists d. split; [exact Hd|]. split; [exact E|].
    rewrite E, getTimecode_spec. reflexivity.
  - unfold ColorBars.remoteTime. rewrite Hzone. reflexivity.
Qed.

Lemma remote_time_is_zone_wall_clock_witness :
  exists d : Z,
    ColorBars.remoteTime Fixture.env
      {| ColorBars.tz_label := "IST"; ColorBars.timezone := "Asia/Kolkata" |}
      (Some 1704110400000%Z)
    = Some (Some d)
    /\ ColorBars.getTimecode Fixture.env d false = "17:30:00:00"%string.
Proof.
  destruct (remote_time_is_zone_wall_clock Fixture.env
              {| ColorBars.tz_label := "IST"; ColorBars.timezone := "Asia/Kolkata" |}
              (fun _ => 19800000%Z) 1704110400000 eq_refl) as ((d & Hd & Hcode & _) & _).
  exists d. split; [exact Hd | rewrite Hcode; reflexivity].
Defined.

(** ** More of the time synchronisation *)

Lemma newDate_comp (p q : Q) :
  p == q -> TimeSync.newDate (Some p) = TimeSync.newDate (Some q).
Proof.
  intros E. unfold TimeSync.newDate, TimeSync.trunc.
  rewrite (Qleb_comp _ _ (Qabs_wd _ _ E) _ _ (Qeq_refl _)).
  rewrite (Qleb_comp _ _ (Qeq_refl 0) _ _ E).
  rewrite (Qfloor_comp _ _ E), (Qceiling_comp _ _ E). reflexivity.
Qed.

(** X14: a successful sync stores the measured offset and releases the
    guard, and from then on the synchronised clock is the server time of the
    response, moved by half the round trip, plus the local time elapsed since
    the offset was taken; read at that very local time it is the stored
    serverTime. *)
Theorem successful_sync_sets_clock
  (s : TimeSync.Store) (t : Z) (c : TimeSync.Readings) (elapsed : Z) :
  TimeSync.syncInProgress s = false ->
  let s' := TimeSync.syncTime s (TimeSync.Body (Some t)) c in
  let latency := (inject_Z (TimeSync.requestEnd c) - inject_Z (TimeSync.requestStart c)) / 2 in
  TimeSync.synced (TimeSync.timeData s') = true
  /\ TimeSync.syncInProgress s' = false
  /\ TimeSync.lastSync (TimeSync.timeData s') = Some (TimeSync.lastSyncNow c)
  /\ TimeSync.offset (TimeSync.timeData s')
     = Some (inject_Z t + latency - inject_Z (TimeSync.localTimestamp c))
  /\ TimeSync.getSyncedTime s' (TimeSync.localTimestamp c + elapsed)
     = TimeSync.newDate (Some (inject_Z t + latency + inject_Z elapsed))
  /\ TimeSync.getSyncedTime s' (TimeSync.localTimestamp c)
     = TimeSync.serverTime (TimeSync.timeData s').
Proof.
  intros Hidle s' latency. unfold s', TimeSync.syncTime, TimeSync.begin. rewrite Hidle.
  cbn [TimeSync.settle TimeSync.timeData TimeSync.synced TimeSync.syncInProgress
       TimeSync.lastSync TimeSync.offset TimeSync.serverTime TimeSync.getTime
       TimeSync.ofInt TimeSync.add TimeSync.sub].
  fold latency. unfold TimeSync.getSyncedTime.
  cbn [TimeSync.timeData TimeSync.offset TimeSync.ofInt TimeSync.add].
  repeat split.
  - apply newDate_comp. rewrite inject_Z_plus. ring.
  - apply newDate_comp. ring.
Qed.

Lemma successful_sync_sets_clock_witness :
  let c := {| TimeSync.requestStart := 1000; TimeSync.requestEnd := 1101;
              TimeSync.localTimestamp := 1102; TimeSync.lastSyncNow := 1102 |} in
  TimeSync.getSyncedTime (TimeSync.syncTime (TimeSync.initial 900) (TimeSync.Body (Some 5000%Z)) c)
    (1102 + 60000)
  = Some 65050%Z.
Proof.
  intros c.
  destruct (successful_sync_sets_clock (TimeSync.initial 900) 5000 c 60000 eq_refl)
    as (_ & _ & _ & _ & H & _).
  exact (eq_trans H eq_refl).
Defined.

Lemma syncTime_idle (s : TimeSync.Store) (r : TimeSync.Fetched) (c : TimeSync.Readings) :
  TimeSync.syncInProgress s = false ->
  TimeSync.syncInProgress (TimeSync.syncTime s r c) = false
  /\ TimeSync.offset (TimeSync.timeData (TimeSync.syncTime s r c))
     = TimeFormat.lastMeasured (TimeSync.offset (TimeSync.timeData s)) [(r, c)]
  /\ TimeSync.synced (TimeSync.timeData (TimeSync.syncTime s r c))
     = negb (TimeSync.failed r).
Proof.
  intros Hidle. unfold TimeSync.syncTime, TimeSync.begin. rewrite Hidle.
  destruct r; repeat split.
Qed.

Lemma last_outcome (A : Type) (f : A -> bool) (l : list A) (x : A) (d1 d2 : bool) :
  match last (map (fun a => Some (f a)) (x :: l)) None with Some o => o | None => d1 end
  = match last (map (fun a => Some (f a)) (x :: l)) None with Some o => o | None => d2 end.
Proof.
  revert x. induction l as [|y l IH]; intros x; [reflexivity|].
  exact (IH y).
Qed.

(** X15: after any number of syncs, each settled before the next starts,
    whatever their outcomes, the guard is released, the offset in use is the
    one measured by the last successful sync, or the one at the start when
    none succeeded, and [synced] tells whether the last sync succeeded. *)
Theorem syncs_keep_last_measurement
  (calls : list (TimeSync.Fetched * TimeSync.Readings)) (s : TimeSync.Store) :
  TimeSync.syncInProgress s = false ->
  let s' := TimeFormat.syncs s calls in
  TimeSync.syncInProgress s' = false
  /\ TimeSync.offset (TimeSync.timeData s')
     = TimeFormat.lastMeasured (TimeSync.offset (TimeSync.timeData s)) calls
  /\ TimeSync.synced (TimeSync.timeData s')
     = match last (map (fun call => Some (negb (TimeSync.failed (fst call)))) calls) None with
       | Some outcome => outcome
       | None => TimeSync.synced (TimeSync.timeData s)
       end
  /\ forall now : Z,
       TimeSync.getSyncedTime s' now
       = TimeSync.newDate
           (TimeSync.add (TimeSync.ofInt now)
              (TimeFormat.lastMeasured (TimeSync.offset (TimeSync.timeData s)) calls)).
Proof.
  revert s. induction calls as [|[r c] rest IH]; intros s Hidle s'.
  - repeat split; assumption.
  - destruct (syncTime_idle s r c Hidle) as (Hguard & Hoff & Hsynced).
    destruct (IH (TimeSync.syncTime s r c) Hguard) as (IH1 & IH2 & IH3 & IH4).
    unfold s'. unfold TimeFormat.syncs in *. cbn [fold_left fst snd].
    assert (TimeFormat.lastMeasured (TimeSync.offset (TimeSync.timeData s)) ((r, c) :: rest)
            = TimeFormat.lastMeasured
                (TimeSync.offset (TimeSync.timeData (TimeSync.syncTime s r c))) rest) as El.
    { rewrite Hoff. destruct r; reflexivity. }
    rewrite El. split; [exact IH1|]. split; [exact IH2|]. split; [|exact IH4].
    rewrite IH3, Hsynced. cbn [map fst].
    destruct rest as [|call rest']; [reflexivity|].
    exact (last_outcome _ (fun call => negb (TimeSync.failed (fst call))) rest' call _ _).
Qed.

Lemma syncs_keep_last_measurement_witness :
  let c := {| TimeSync.requestStart := 1000; TimeSync.requestEnd := 1101;
              TimeSync.localTimestamp := 1102; TimeSync.lastSyncNow := 1102 |} in
  TimeSync.getSyncedTime
    (TimeFormat.syncs (TimeSync.initial 900)
       [(TimeSync.FetchRejected, c); (TimeSync.Body (Some 5000%Z), c);
        (TimeSync.JsonRejected, c)]) 2000
  = Some 5948%Z.
Proof.
  intros c.
  destruct (syncs_keep_last_measurement
              [(TimeSync.FetchRejected, c); (TimeSync.Body (Some 5000%Z), c);
               (TimeSync.JsonRejected, c)] (TimeSync.initial 900) eq_refl)
    as (_ & _ & _ & H).
  exact (eq_trans (H 2000%Z) eq_refl).
Defined.

(** ** Formatting *)

Lemma append_assoc (a b c : string) : ((a ++ b) ++ c = a ++ (b ++ c))%string.
Proof. induction a as [|ch a IH]; simpl; [reflexivity | rewrite IH; reflexivity]. Qed.

Lemma of_uint_acc_bound (d : Decimal.uint) (acc : positive) :
  (N.pos (Pos.of_uint_acc d acc) < (N.pos acc + 1) * 10 ^ N.of_nat (Decimal.nb_digits d))%N.
Proof.
  revert acc.
  induction d as [|d IH|d IH|d IH|d IH|d IH|d IH|d IH|d IH|d IH|d IH]; intros acc;
    cbn [Pos.of_uint_acc Decimal.nb_digits];
    [ cbn; lia | .. ];
    rewrite Nat2N.inj_succ, N.pow_succ_r';
    match goal with
    | |- (N.pos (Pos.of_uint_acc d ?a) < _)%N => specialize (IH a)
    end;
    set (m := (10 ^ N.of_nat (Decimal.nb_digits d))%N) in *; nia.
Qed.

Lemma of_uint_bound (d : Decimal.uint) :
  (Pos.of_uint d < 10 ^ N.of_nat (Decimal.nb_digits d))%N.
Proof.
  induction d as [|d IH|d IH|d IH|d IH|d IH|d IH|d IH|d IH|d IH|d IH];
    cbn [Pos.of_uint Decimal.nb_digits];
    [ cbn; lia | .. ];
    rewrite Nat2N.inj_succ, N.pow_succ_r';
    try match goal with
        | |- (N.pos (Pos.of_uint_acc _ ?a) < _)%N => pose proof (of_uint_acc_bound d a) as B
        end;
    set (m := (10 ^ N.of_nat (Decimal.nb_digits d))%N) in *; nia.
Qed.

Lemma string_of_uint_length (d : Decimal.uint) :
  String.length (NilEmpty.string_of_uint d) = Decimal.nb_digits d.
Proof.
  induction d; cbn [NilEmpty.string_of_uint Decimal.nb_digits String.length]; congruence.
Qed.

Lemma toString_length (y : Z) :
  (1000 <= y)%Z -> (4 <= String.length (JsString.toString y))%nat.
Proof.
  intros Hy. unfold JsString.toString. destruct y as [|p|p]; try lia.
  cbn [Z.to_int NilZero.string_of_int]. unfold NilZero.string_of_uint.
  pose proof (DecimalPos.Unsigned.to_uint_nonnil p) as Hnil.
  destruct (Pos.to_uint p) eqn:E; [contradiction | ..]; rewrite <- E;
    rewrite string_of_uint_length;
    pose proof (of_uint_bound (Pos.to_uint p)) as B;
    rewrite DecimalPos.Unsigned.of_to in B;
    destruct (Nat.le_gt_cases 4%nat (Decimal.nb_digits (Pos.to_uint p))) as [G|G]; try exact G;
    exfalso;
    assert (10 ^ N.of_nat (Decimal.nb_digits (Pos.to_uint p)) <= 10 ^ 3)%N
      by (apply N.pow_le_mono_r; lia);
    change (10 ^ 3)%N with 1000%N in *; lia.
Qed.

Lemma yearString_four_digits (y : Z) :
  (1000 <= y <= 9999)%Z -> JsDate.yearString y = JsString.toString y.
Proof.
  intros Hy. unfold JsDate.yearString.
  replace ((0 <=? y) && (y <=? 9999))%Z with true
    by (symmetry; apply andb_true_intro; split; apply Z.leb_le; lia).
  unfold JsDate.pad, JsString.padStart.
  pose proof (toString_length y (proj1 Hy)) as Hlen.
  apply Nat.leb_le in Hlen. rewrite Hlen. reflexivity.
Qed.

(** X16: for a date whose UTC year has four digits, formatDate and
    formatTime with milliseconds are the two halves of the ISO text of the
    date: toISOString = formatDate + "T" + formatTime(date, true) + "Z"; and
    formatTime without milliseconds is formatTime with them, cut before the
    dot. *)
Theorem formats_compose_iso (t : Z) :
  (1000 <= TimeFormat.getUTCFullYear t <= 9999)%Z ->
  JsDate.toISOString t
  = (TimeFormat.formatDate t ++ "T" ++ TimeFormat.formatTime t true ++ "Z")%string
  /\ TimeFormat.formatTime t true
     = (TimeFormat.formatTime t false ++ "."
        ++ JsString.padStart 3 "0" (JsString.toString (JsDate.getUTCMilliseconds t)))%string.
Proof.
  intros Hy. split.
  - unfold JsDate.toISOString, TimeFormat.formatDate, TimeFormat.formatTime,
      TimeFormat.getUTCFullYear, TimeFormat.getUTCMonth, TimeFormat.getUTCDate in *.
    destruct (JsDate.civil (JsDate.Day t)) as [[y m] d]. cbn [fst snd] in *.
    rewrite (yearString_four_digits y Hy).
    replace (m - 1 + 1)%Z with m by lia.
    unfold JsDate.pad, JsDate.getUTCHours, JsDate.getUTCMinutes, JsDate.getUTCSeconds,
      JsDate.getUTCMilliseconds.
    rewrite !append_assoc. reflexivity.
  - unfold TimeFormat.formatTime. rewrite !append_assoc. reflexivity.
Qed.

Lemma formats_compose_iso_witness :
  (TimeFormat.formatDate 1704067200500 ++ "T" ++ TimeFormat.formatTime 1704067200500 true
     ++ "Z")%string
  = "2024-01-01T00:00:00.500Z"%string.
Proof.
  rewrite <- (proj1 (formats_compose_iso 1704067200500 ltac:(vm_compute; split; discriminate))).
  reflexivity.
Defined.

(** X17: the timecode of the component and formatTime of the time-sync
    module agree on the clock: for every instant the UTC timecode is
    formatTime(date) followed by ":" and the two digits of the frame, and
    formatTime(date) has 8 characters. *)
Theorem timecode_extends_formatTime (env : ColorBars.Env) (t : Z) :
  ColorBars.getTimecode env t false
  = (TimeFormat.formatTime t false ++ ":"
     ++ Spec.twoDigits (Spec.frameIndex (JsDate.getUTCMilliseconds t)))%string
  /\ String.length (TimeFormat.formatTime t false) = 8%nat
  /\ substring 0 8 (ColorBars.getTimecode env t false) = TimeFormat.formatTime t false.
Proof.
  assert (TimeFormat.formatTime t false
          = (Spec.twoDigits (JsDate.getUTCHours t) ++ ":"
             ++ Spec.twoDigits (JsDate.getUTCMinutes t) ++ ":"
             ++ Spec.twoDigits (JsDate.getUTCSeconds t))%string) as Ef.
  { unfold TimeFormat.formatTime.
    rewrite !pad2_twoDigits; [reflexivity | | | ];
      unfold JsDate.getUTCSeconds, JsDate.SecFromTime, JsDate.getUTCMinutes,
        JsDate.MinFromTime, JsDate.getUTCHours, JsDate.HourFromTime;
      match goal with |- (0 <= ?a mod ?b < _)%Z => pose proof (Z.mod_pos_bound a b) end; lia. }
  assert (ColorBars.getTimecode env t false
          = (TimeFormat.formatTime t false ++ ":"
             ++ Spec.twoDigits (Spec.frameIndex (JsDate.getUTCMilliseconds t)))%string) as Ec.
  { rewrite getTimecode_spec, Ef. unfold Spec.timecode. rewrite !append_assoc. reflexivity. }
  split; [exact Ec|]. split; [rewrite Ef; reflexivity|].
  rewrite Ec, Ef. reflexivity.
Qed.

(** ** The page around the component *)

Lemma resolutions_dimensions (r : Page.Resolution) :
  In r Page.resolutions ->
  (Page.res_width r = 0 /\ Page.res_height r = 0)
  \/ (0 < Page.res_width r /\ 0 < Page.res_height r).
Proof.
  intros Hin. simpl in Hin.
  repeat (destruct Hin as [<-|Hin]; [(left; split; reflexivity) || (right; split; reflexivity)|]).
  contradiction.
Qed.

Lemma find_listed_resolution (r : Page.Resolution) :
  In r Page.resolutions ->
  find (fun r' => String.eqb (Page.res_name r') (Page.res_name r)) Page.resolutions = Some r.
Proof.
  intros Hin. simpl in Hin.
  repeat (destruct Hin as [<-|Hin]; [reflexivity|]).
  contradiction.
Qed.

(** X18: settings survive the round trip through localStorage: loading what
    saveSettings stored, into any state of the page, restores the fifteen
    persisted settings of the saved state, the resolution as the entry of
    the table, and leaves the other variables of the loading page as they
    were; loaded into the saved state itself it changes nothing. *)
Theorem settings_round_trip (st other : Page.State) (storage : Page.Storage) :
  In (Page.resolution st) Page.resolutions ->
  Page.loadSettings true (Page.saveSettings true st storage) other
  = {| Page.resolution := Page.resolution st;
       Page.containerWidth := Page.containerWidth other;
       Page.containerHeight := Page.containerHeight other;
       Page.nativeWidth := Page.nativeWidth other;
       Page.nativeHeight := Page.nativeHeight other;
       Page.isFullscreen := Page.isFullscreen other;
       Page.ballEnabled := Page.ballEnabled st;
       Page.spinnerEnabled := Page.spinnerEnabled st;
       Page.syncQrEnabled := Page.syncQrEnabled st;
       Page.shimmerEnabled := Page.shimmerEnabled st;
       Page.gridEnabled := Page.gridEnabled st;
       Page.frameEnabled := Page.frameEnabled st;
       Page.actualSizeMode := Page.actualSizeMode other;
       Page.showUtcTime := Page.showUtcTime st;
       Page.showLocalTime := Page.showLocalTime st;
       Page.showRemoteTime := Page.showRemoteTime st;
       Page.selectedTimezone := Page.selectedTimezone st;
       Page.customText := Page.customText st;
       Page.customImage := Page.customImage other;
       Page.hAlign := Page.hAlign st;
       Page.vAlign := Page.vAlign st;
       Page.textScale := Page.textScale st;
       Page.settingsLoaded := Page.settingsLoaded other |}
  /\ Page.loadSettings true (Page.saveSettings true st storage) st = st.
Proof.
  intros Hin.
  assert (forall o : Page.State,
            Page.resolution (Page.loadSettings true (Page.saveSettings true st storage) o)
            = Page.resolution st) as Hres.
  { intros o. unfold Page.loadSettings, Page.saveSettings.
    cbn [negb Page.s_resolution Page.resolution].
    rewrite (find_listed_resolution _ Hin). reflexivity. }
  split.
  - specialize (Hres other). revert Hres.
    unfold Page.loadSettings, Page.saveSettings.
    cbn [negb Page.s_resolution Page.resolution Page.orDefault Page.s_ball Page.s_spinner
         Page.s_syncQr Page.s_shimmer Page.s_grid Page.s_frame Page.s_showUtc
         Page.s_showLocal Page.s_showRemote Page.s_timezone Page.s_customText Page.s_hAlign
         Page.s_vAlign Page.s_textScale].
    intros ->. reflexivity.
  - specialize (Hres st). revert Hres.
    unfold Page.loadSettings, Page.saveSettings.
    cbn [negb Page.s_resolution Page.resolution Page.orDefault Page.s_ball Page.s_spinner
         Page.s_syncQr Page.s_shimmer Page.s_grid Page.s_frame Page.s_showUtc
         Page.s_showLocal Page.s_showRemote Page.s_timezone Page.s_customText Page.s_hAlign
         Page.s_vAlign Page.s_textScale].
    intros ->. destruct st; reflexivity.
Qed.

Lemma settings_round_trip_witness :
  Page.loadSettings true (Page.saveSettings true Page.declared None) Page.declared
  = Page.declared.
Proof.
  exact (proj2 (settings_round_trip Page.declared Page.declared None (or_introl eq_refl))).
Defined.

(** X19: whatever localStorage holds, text that does not parse and objects
    with missing or unknown entries included, and in or out of the browser,
    loadSettings leaves the resolution an entry of the table, so that it is
    Fit Display or has both dimensions positive and scalePercent never divides
    by zero; and it never touches the image, the actual-size mode, the
    container and native dimensions and the fullscreen flag. *)
Theorem load_keeps_resolution_listed
  (browser : bool) (storage : Page.Storage) (st : Page.State) :
  In (Page.resolution st) Page.resolutions ->
  let st' := Page.loadSettings browser storage st in
  In (Page.resolution st') Page.resolutions
  /\ ((Page.res_width (Page.resolution st') = 0 /\ Page.res_height (Page.resolution st') = 0)
      \/ (0 < Page.res_width (Page.resolution st')
          /\ 0 < Page.res_height (Page.resolution st')))
  /\ Page.customImage st' = Page.customImage st
  /\ Page.actualSizeMode st' = Page.actualSizeMode st
  /\ Page.containerWidth st' = Page.containerWidth st
  /\ Page.containerHeight st' = Page.containerHeight st
  /\ Page.nativeWidth st' = Page.nativeWidth st
  /\ Page.nativeHeight st' = Page.nativeHeight st
  /\ Page.isFullscreen st' = Page.isFullscreen st.
Proof.
  intros Hin st'.
  assert (In (Page.resolution st') Page.resolutions) as Hin'.
  { unfold st', Page.loadSettings.
    destruct browser; [|exact Hin]. cbn [negb].
    destruct storage as [[| |settings]|]; try exact Hin.
    cbn [Page.resolution].
    destruct (find _ Page.resolutions) as [res|] eqn:F; [|exact Hin].
    exact (proj1 (find_some _ _ F)). }
  split; [exact Hin'|]. split; [exact (resolutions_dimensions _ Hin')|].
  unfold st', Page.loadSettings.
  destruct browser; [|repeat split]. cbn [negb].
  destruct storage as [[| |settings]|]; repeat split.
Qed.

Lemma load_keeps_resolution_listed_witness :
  In (Page.resolution (Page.loadSettings true (Some Page.Unparsable) Page.declared))
     Page.resolutions.
Proof.
  exact (proj1 (load_keeps_resolution_listed true (Some Page.Unparsable) Page.declared
                  (or_introl eq_refl))).
Defined.

(** X20: the component is never handed a zone that is not in the table of
    the page: when getRemoteTimezone gives a zone, the remote display is
    switched on, the zone is the selected one, it is the value of an entry
    of the table and the label is the label of the first such entry.  A
    selected zone that is not in the table, as a stored setting may hold,
    gives no remote display. *)
Theorem remote_zone_is_listed (st : Page.State) (rz : ColorBars.RemoteTimezone) :
  ColorBars.remoteTimezone (Page.componentProps st) = Some rz ->
  Page.showRemoteTime st = true
  /\ ColorBars.timezone rz = Page.selectedTimezone st
  /\ exists tz : Page.Timezone,
       In tz Page.timezones
       /\ Page.value tz = ColorBars.timezone rz
       /\ Page.zone_label tz = ColorBars.tz_label rz
       /\ find (fun t => String.eqb (Page.value t) (Page.selectedTimezone st)) Page.timezones
          = Some tz.
Proof.
  cbn [Page.componentProps ColorBars.remoteTimezone]. unfold Page.getRemoteTimezone.
  destruct (Page.showRemoteTime st); [|discriminate]. cbn [negb].
  destruct (find _ Page.timezones) as [tz|] eqn:F; [|discriminate].
  intros [= <-]. cbn [ColorBars.timezone ColorBars.tz_label].
  destruct (find_some _ _ F) as [Hin Hv]. apply String.eqb_eq in Hv.
  split; [reflexivity|]. split; [reflexivity|].
  exists tz. repeat split; assumption.
Qed.

Lemma remote_zone_is_listed_witness :
  let stored :=
    {| Page.s_resolution := Some "1080p"%string;
       Page.s_ball := None; Page.s_spinner := None; Page.s_syncQr := None;
       Page.s_shimmer := None; Page.s_grid := None; Page.s_frame := None;
       Page.s_showUtc := None; Page.s_showLocal := None;
       Page.s_showRemote := Some true; Page.s_timezone := Some "Asia/Kolkata"%string;
       Page.s_customText := None; Page.s_hAlign := None; Page.s_vAlign := None;
       Page.s_textScale := None |} in
  let st := Page.loadSettings true (Some (Page.JsonObject stored)) Page.declared in
  Page.showRemoteTime st = true
  /\ exists tz : Page.Timezone, In tz Page.timezones /\ Page.zone_label tz = "IST"%string.
Proof.
  intros stored st.
  destruct (remote_zone_is_listed st
              {| ColorBars.tz_label := "IST"; ColorBars.timezone := "Asia/Kolkata" |} eq_refl)
    as (Hshow & _ & tz & Hin & _ & Hlabel & _).
  split; [exact Hshow|]. exists tz. split; [exact Hin | exact Hlabel].
Defined.



(** ** Zoom level *)

Lemma round_bounds (x : Q) :
  inject_Z (round x) - (1 # 2) <= x /\ x < inject_Z (round x) + (1 # 2).
Proof.
  unfold round.
  pose proof (Qfloor_le (x + (1 # 2))) as Hlo.
  pose proof (Qlt_floor (x + (1 # 2))) as Hhi.
  rewrite inject_Z_plus in Hhi. change (inject_Z 1) with 1 in Hhi.
  split; lra.
Qed.

(** X22: the zoom level for a resolution of the table.  Fit Display is
    always 100.  For a fixed resolution the picture at half a percent less
    than the level shown fits the container in both dimensions, and at half
    a percent more it reaches or passes it in one: the level is the scale
    at which the picture just fits, in percent, to the nearest integer.  A container of the size of the resolution gives 100. *)
Theorem scalePercent_fits (st : Page.State) :
  In (Page.resolution st) Page.resolutions ->
  let p := inject_Z (Page.scalePercent st) in
  let rw := Page.res_width (Page.resolution st) in
  let rh := Page.res_height (Page.resolution st) in
  (rw = 0 -> Page.scalePercent st = 100%Z)
  /\ (0 < rw ->
      (p - (1 # 2)) * rw <= 100 * Page.containerWidth st
      /\ (p - (1 # 2)) * rh <= 100 * Page.containerHeight st
      /\ (100 * Page.containerWidth st <= (p + (1 # 2)) * rw
          \/ 100 * Page.containerHeight st <= (p + (1 # 2)) * rh)
      /\ (Page.containerWidth st == rw -> Page.containerHeight st == rh ->
          Page.scalePercent st = 100%Z)).
Proof.
  intros Hin p rw rh.
  destruct (resolutions_dimensions _ Hin) as [[Hw Hh]|[Hw Hh]]; fold rw rh in Hw, Hh.
  - split.
    + intros _. unfold Page.scalePercent. fold rw. rewrite Hw. reflexivity.
    + intros Hpos. rewrite Hw in Hpos. discriminate Hpos.
  - split.
    + intros E. rewrite E in Hw. discriminate Hw.
    + intros _.
      assert (Qeq_bool rw 0 = false) as Enz.
      { apply not_true_is_false. intros E. apply Qeq_bool_eq in E. lra. }
      set (a := Page.containerWidth st / rw).
      set (b := Page.containerHeight st / rh).
      assert (Page.scalePercent st = round (Qmin a b * 100)) as Ep.
      { unfold Page.scalePercent. fold rw rh. rewrite Enz. reflexivity. }
      assert (Page.containerWidth st == a * rw) as Ea by (unfold a; field; lra).
      assert (Page.containerHeight st == b * rh) as Eb by (unfold b; field; lra).
      destruct (round_bounds (Qmin a b * 100)) as [Hlo Hhi].
      rewrite <- Ep in Hlo, Hhi. fold p in Hlo, Hhi.
      pose proof (Q.le_min_l a b) as Hl. pose proof (Q.le_min_r a b) as Hr.
      split; [|split; [|split]].
      * rewrite Ea. nra.
      * rewrite Eb. nra.
      * destruct (Q.min_spec a b) as [[_ E]|[_ E]]; rewrite E in Hhi.
        -- left. rewrite Ea. nra.
        -- right. rewrite Eb. nra.
      * intros Ecw Ech. rewrite Ep.
        assert (Qmin a b * 100 == 100) as E100.
        { assert (a == 1) as -> by (unfold a; rewrite Ecw; field; lra).
          assert (b == 1) as -> by (unfold b; rewrite Ech; field; lra).
          reflexivity. }
        unfold round. rewrite (Qfloor_comp _ _ (Qplus_comp _ _ E100 _ _ (Qeq_refl (1 # 2)))).
        reflexivity.
Qed.

Lemma scalePercent_fits_witness :
  let st :=
    Page.loadSettings true
      (Page.saveSettings true
         {| Page.resolution :=
              {| Page.res_name := "4K UHD"; Page.res_width := 3840; Page.res_height := 2160;
                 Page.aspect := "16:9" |};
            Page.containerWidth := 0; Page.containerHeight := 0;
            Page.nativeWidth := 0; Page.nativeHeight := 0; Page.isFullscreen := false;
            Page.ballEnabled := false; Page.spinnerEnabled := false;
            Page.syncQrEnabled := false; Page.shimmerEnabled := false;
            Page.gridEnabled := false; Page.frameEnabled := false;
            Page.actualSizeMode := false; Page.showUtcTime := true;
            Page.showLocalTime := false; Page.showRemoteTime := false;
            Page.selectedTimezone := "America/New_York"; Page.customText := "";
            Page.customImage := None; Page.hAlign := Overlay.HCenter;
            Page.vAlign := Overlay.VCenter; Page.textScale := 1;
            Page.settingsLoaded := true |} None)
      Page.declared in
  Page.scalePercent st = 50%Z
  /\ (inject_Z (Page.scalePercent st) - (1 # 2)) * 3840 <= 100 * 1920.
Proof.
  intros st. split; [reflexivity|].
  exact (proj1 (proj2 (scalePercent_fits st ltac:(vm_compute; tauto)) eq_refl)).
Defined.

(** ** Fullscreen and the report of scaling *)

(** X23: the page and the component together, in Fit Display on a screen
    of [sw] by [sh] CSS pixels.  Out of fullscreen the component never
    reports scaling.  In fullscreen it reports none when the device pixel
    ratio is 1, or is missing or 0, and reports scaling when the ratio
    makes the screen at least one physical pixel wider than it has CSS
    pixels. *)
Theorem fullscreen_scaling_report (sw sh : Z) (dpr : Q) (st : Page.State) :
  Page.resolution st = Page.fitDisplay ->
  (1 <= sw)%Z -> (1 <= sh)%Z ->
  Page.reportsScaling
    (Page.handleFullscreenChange false (inject_Z sw) (inject_Z sh) dpr st) = false
  /\ (dpr == 0 \/ dpr == 1 ->
      Page.reportsScaling
        (Page.handleFullscreenChange true (inject_Z sw) (inject_Z sh) dpr st) = false)
  /\ (inject_Z sw + 1 <= inject_Z sw * dpr ->
      Page.reportsScaling
        (Page.handleFullscreenChange true (inject_Z sw) (inject_Z sh) dpr st) = true).
Proof.
  intros Hfit Hsw Hsh.
  assert (1 <= inject_Z sw) as Qsw by (change 1 with (inject_Z 1); rewrite <- Zle_Qle; exact Hsw).
  assert (1 <= inject_Z sh) as Qsh by (change 1 with (inject_Z 1); rewrite <- Zle_Qle; exact Hsh).
  unfold Page.reportsScaling, Page.actualWidth, Page.actualHeight, Page.handleFullscreenChange.
  cbn [Page.resolution Page.containerWidth Page.containerHeight Page.nativeWidth
       Page.nativeHeight].
  rewrite Hfit. cbn [Page.fitDisplay Page.res_width Page.res_height].
  change (Qeq_bool 0 0) with true. cbv iota.
  unfold Overlay.isScaled, ColorBars.gtb, floor.
  split; [reflexivity|]. split.
  - intros Hd.
    assert (inject_Z sw * (if Qeq_bool dpr 0 then 1 else dpr) == inject_Z sw) as Ew.
    { destruct (Qeq_bool dpr 0) eqn:E0; [ring|]. destruct Hd as [Hd|Hd].
      - apply Qeq_eq_bool in Hd. congruence.
      - rewrite Hd. ring. }
    assert (inject_Z sh * (if Qeq_bool dpr 0 then 1 else dpr) == inject_Z sh) as Eh.
    { destruct (Qeq_bool dpr 0) eqn:E0; [ring|]. destruct Hd as [Hd|Hd].
      - apply Qeq_eq_bool in Hd. congruence.
      - rewrite Hd. ring. }
    rewrite (Qfloor_comp _ _ Ew), (Qfloor_comp _ _ Eh), !Qfloor_Z.
    rewrite !(Qeq_eq_bool _ _ (Qeq_refl _)). cbn [negb orb].
    rewrite Bool.andb_false_r. reflexivity.
  - intros Hwide.
    assert (Qeq_bool dpr 0 = false) as E0.
    { apply not_true_is_false. intros E. apply Qeq_bool_eq in E. rewrite E in Hwide. lra. }
    rewrite E0.
    assert (1 < dpr) as Hd by nra.
    assert (inject_Z sw + 1 <= inject_Z (Qfloor (inject_Z sw * dpr))) as Hw.
    { pose proof (Qfloor_resp_le _ _ Hwide) as Hfl.
      change 1 with (inject_Z 1) in Hfl. rewrite <- inject_Z_plus, Qfloor_Z in Hfl.
      rewrite Zle_Qle, inject_Z_plus in Hfl. exact Hfl. }
    assert (1 <= inject_Z (Qfloor (inject_Z sh * dpr))) as Hh.
    { change 1 with (inject_Z 1). rewrite <- Zle_Qle.
      change 1%Z with (Qfloor (inject_Z 1)). apply Qfloor_resp_le.
      change (inject_Z 1) with 1. nra. }
    assert (Qle_bool (inject_Z (Qfloor (inject_Z sw * dpr))) 0 = false) as G1.
    { apply not_true_is_false. intros E. apply Qle_bool_imp_le in E. lra. }
    assert (Qle_bool (inject_Z (Qfloor (inject_Z sh * dpr))) 0 = false) as G2.
    { apply not_true_is_false. intros E. apply Qle_bool_imp_le in E. lra. }
    assert (Qeq_bool (inject_Z (Qfloor (inject_Z sw * dpr))) (inject_Z sw) = false) as G3.
    { apply not_true_is_false. intros E. apply Qeq_bool_eq in E. lra. }
    rewrite G1, G2, G3. reflexivity.
Qed.

Lemma fullscreen_scaling_report_witness :
  Page.reportsScaling (Page.handleFullscreenChange true 1920 1080 2 Page.declared) = true
  /\ Page.reportsScaling (Page.handleFullscreenChange true 1920 1080 1 Page.declared) = false.
Proof.
  split.
  - exact (proj2 (proj2 (fullscreen_scaling_report 1920 1080 2 Page.declared eq_refl
                           ltac:(lia) ltac:(lia)))
             ltac:(unfold Qle; simpl; lia)).
  - exact (proj1 (proj2 (fullscreen_scaling_report 1920 1080 1 Page.declared eq_refl
                           ltac:(lia) ltac:(lia)))
             (or_intror (Qeq_refl 1))).
Defined.
